(** * DBF2025 sizing tool: the aircraft data model and its fingerprint

    A shallow embedding of [src/models.py]: the [Aircraft] record, its
    [__hash__] (6-decimal formatting, [json.dumps(..., sort_keys=True)],
    SHA-256, first eight digest bytes read big-endian) and
    [AircraftAnalysisResults.fromDict]. *)

From Stdlib Require Import ZArith List String Ascii Bool Lia Permutation Sorted.
From Stdlib Require Import DecimalString DecimalN DecimalFacts.
From Stdlib Require Import Floats.SpecFloat.
Import ListNotations.
Local Open Scope Z_scope.

(** ** SHA-256 ([hashlib.sha256]), FIPS 180-4, on 32-bit words held in [Z] *)

Module SHA256.

Definition mask32 : Z := 4294967295.

Definition add32 (x y : Z) : Z := Z.land (x + y) mask32.

Definition rotr (n x : Z) : Z :=
  Z.lor (Z.shiftr x n) (Z.land (Z.shiftl x (32 - n)) mask32).

Definition Ch (x y z : Z) : Z :=
  Z.lxor (Z.land x y) (Z.land (Z.lxor x mask32) z).

Definition Maj (x y z : Z) : Z :=
  Z.lxor (Z.lxor (Z.land x y) (Z.land x z)) (Z.land y z).

Definition bsig0 (x : Z) : Z := Z.lxor (Z.lxor (rotr 2 x) (rotr 13 x)) (rotr 22 x).
Definition bsig1 (x : Z) : Z := Z.lxor (Z.lxor (rotr 6 x) (rotr 11 x)) (rotr 25 x).
Definition ssig0 (x : Z) : Z := Z.lxor (Z.lxor (rotr 7 x) (rotr 18 x)) (Z.shiftr x 3).
Definition ssig1 (x : Z) : Z := Z.lxor (Z.lxor (rotr 17 x) (rotr 19 x)) (Z.shiftr x 10).

(** Round constants: the first 32 bits of the fractional parts of the cube
    roots of the first 64 primes. *)
Definition K : list Z :=
  [1116352408; 1899447441; 3049323471; 3921009573;
   961987163; 1508970993; 2453635748; 2870763221;
   3624381080; 310598401; 607225278; 1426881987;
   1925078388; 2162078206; 2614888103; 3248222580;
   3835390401; 4022224774; 264347078; 604807628;
   770255983; 1249150122; 1555081692; 1996064986;
   2554220882; 2821834349; 2952996808; 3210313671;
   3336571891; 3584528711; 113926993; 338241895;
   666307205; 773529912; 1294757372; 1396182291;
   1695183700; 1986661051; 2177026350; 2456956037;
   2730485921; 2820302411; 3259730800; 3345764771;
   3516065817; 3600352804; 4094571909; 275423344;
   430227734; 506948616; 659060556; 883997877;
   958139571; 1322822218; 1537002063; 1747873779;
   1955562222; 2024104815; 2227730452; 2361852424;
   2428436474; 2756734187; 3204031479; 3329325298].

(** Four bytes, most significant first, to one word and back. *)
Definition word_of_bytes (b3 b2 b1 b0 : Z) : Z :=
  Z.lor (Z.lor (Z.shiftl b3 24) (Z.shiftl b2 16)) (Z.lor (Z.shiftl b1 8) b0).

Definition bytes_of_word (w : Z) : list Z :=
  [Z.land (Z.shiftr w 24) 255; Z.land (Z.shiftr w 16) 255;
   Z.land (Z.shiftr w 8) 255; Z.land w 255].

Fixpoint words_of_bytes (bs : list Z) : list Z :=
  match bs with
  | b3 :: b2 :: b1 :: b0 :: rest => word_of_bytes b3 b2 b1 b0 :: words_of_bytes rest
  | _ => []
  end.

(** Padding: a 1 bit, zeros up to 56 mod 64 bytes, then the bit length on
    8 bytes, big-endian. *)
Definition length_bytes (bits : Z) : list Z :=
  map (fun i => Z.land (Z.shiftr bits (8 * i)) 255) [7; 6; 5; 4; 3; 2; 1; 0].

Definition pad (msg : list Z) : list Z :=
  let len := Z.of_nat (List.length msg) in
  let zeros := Z.to_nat ((55 - len) mod 64) in
  msg ++ 128 :: repeat 0 zeros ++ length_bytes (8 * len).

(** Message schedule.  [acc] holds the words computed so far, newest first. *)
Fixpoint extend (n : nat) (acc : list Z) : list Z :=
  match n with
  | O => acc
  | S n' =>
      let w := add32 (add32 (ssig1 (nth 1 acc 0)) (nth 6 acc 0))
                     (add32 (ssig0 (nth 14 acc 0)) (nth 15 acc 0)) in
      extend n' (w :: acc)
  end.

Definition schedule (block : list Z) : list Z := rev (extend 48 (rev block)).

Record state := mkState { sa : Z; sb : Z; sc : Z; sd : Z; se : Z; sf : Z; sg : Z; sh : Z }.

Definition round (s : state) (kw : Z * Z) : state :=
  let '(k, w) := kw in
  let t1 := add32 (add32 (add32 (sh s) (bsig1 (se s))) (Ch (se s) (sf s) (sg s))) (add32 k w) in
  let t2 := add32 (bsig0 (sa s)) (Maj (sa s) (sb s) (sc s)) in
  mkState (add32 t1 t2) (sa s) (sb s) (sc s) (add32 (sd s) t1) (se s) (sf s) (sg s).

Definition compress (s : state) (block : list Z) : state :=
  let r := fold_left round (combine K (schedule block)) s in
  mkState (add32 (sa s) (sa r)) (add32 (sb s) (sb r)) (add32 (sc s) (sc r))
          (add32 (sd s) (sd r)) (add32 (se s) (se r)) (add32 (sf s) (sf r))
          (add32 (sg s) (sg r)) (add32 (sh s) (sh r)).

(** The padded message is consumed sixteen words at a time; [fuel] bounds the
    number of blocks. *)
Fixpoint blocks (fuel : nat) (ws : list Z) (s : state) : state :=
  match fuel with
  | O => s
  | S fuel' =>
      match ws with
      | [] => s
      | _ => blocks fuel' (skipn 16 ws) (compress s (firstn 16 ws))
      end
  end.

(** Initial hash value: the first 32 bits of the fractional parts of the
    square roots of the first 8 primes. *)
Definition init : state :=
  mkState 1779033703 3144134277 1013904242 2773480762
          1359893119 2600822924 528734635 1541459225.

Definition state_bytes (s : state) : list Z :=
  bytes_of_word (sa s) ++ bytes_of_word (sb s) ++ bytes_of_word (sc s) ++
  bytes_of_word (sd s) ++ bytes_of_word (se s) ++ bytes_of_word (sf s) ++
  bytes_of_word (sg s) ++ bytes_of_word (sh s).

(** [hashlib.sha256(msg).digest()]: 32 bytes. *)
Definition digest (msg : list Z) : list Z :=
  let ws := words_of_bytes (pad msg) in
  state_bytes (blocks (List.length ws) ws init).

End SHA256.


(** ** Python floats: IEEE-754 binary64 *)

Definition float := spec_float.
Definition prec : Z := 53.
Definition emax : Z := 1024.

(** The values a Python [float] can hold. *)
Definition is_double (x : float) : bool := valid_binary prec emax x.

Definition is_finite (x : float) : bool :=
  match x with
  | S754_zero _ | S754_finite _ _ _ => true
  | S754_infinity _ | S754_nan => false
  end.

(** The double nearest to [m * 2^e], and the double nearest to the decimal
    literal [n / d] (both integers below [2^53], so the quotient is rounded
    once, as the literal is). *)
Definition double_of (m e : Z) : float := binary_normalize prec emax m e false.
Definition literal (n d : Z) : float :=
  SFdiv prec emax (double_of n 0) (double_of d 0).

(** ** [format_number]: the format specification [.6f] *)

Definition dquote : ascii := "034"%char.
Definition str1 (c : ascii) : string := String c EmptyString.

Definition digit_char (d : Z) : ascii := ascii_of_N (Z.to_N (48 + d)).

(** Decimal digits of a natural number, no leading zero, ["0"] for zero. *)
Definition int_digits (n : Z) : string :=
  NilZero.string_of_uint (N.to_uint (Z.to_N n)).

(** Six digits of [r], zero padded. *)
Definition frac6 (r : Z) : string :=
  string_of_list_ascii
    (map (fun p => digit_char ((r / p) mod 10)) [100000; 10000; 1000; 100; 10; 1]).

(** [q] millionths printed in fixed point. *)
Definition fixed6 (neg : bool) (q : Z) : string :=
  ((if neg then "-" else "") ++ int_digits (q / 1000000) ++ "." ++ frac6 (q mod 1000000))%string.

(** The integer nearest to [m * 2^e * 10^6], ties to the even one: CPython
    formats the exact binary value correctly rounded ([_Py_dg_dtoa], mode 3). *)
Definition round6 (m : positive) (e : Z) : Z :=
  if 0 <=? e then Z.pos m * 2 ^ e * 1000000
  else
    let num := Z.pos m * 1000000 in
    let den := 2 ^ (- e) in
    let q := num / den in
    match 2 * (num mod den) ?= den with
    | Lt => q
    | Gt => q + 1
    | Eq => if Z.even q then q else q + 1
    end.

(** [f"{n:.6f}"] *)
Definition format_number (n : float) : string :=
  match n with
  | S754_nan => "nan"
  | S754_infinity s => if s then "-inf" else "inf"
  | S754_zero s => fixed6 s 0
  | S754_finite s m e => fixed6 s (round6 m e)
  end.

(** ** [json.dumps(hash_dict, sort_keys=True)] *)

(** The values of [hash_dict]: a string or a list of strings. *)
Inductive jvalue :=
  | JStr (s : string)
  | JList (xs : list string).

Definition hex4 (n : Z) : string :=
  let h d := ascii_of_N (Z.to_N (if d <? 10 then 48 + d else 87 + d)) in
  string_of_list_ascii
    [h ((n / 4096) mod 16); h ((n / 256) mod 16); h ((n / 16) mod 16); h (n mod 16)].

(** [py_encode_basestring_ascii] on one character (code points below 256). *)
Definition escape_char (c : ascii) : string :=
  let n := Z.of_N (N_of_ascii c) in
  if n =? 34 then String "\" (str1 dquote)
  else if n =? 92 then "\\"
  else if n =? 10 then "\n"
  else if n =? 13 then "\r"
  else if n =? 9 then "\t"
  else if n =? 8 then "\b"
  else if n =? 12 then "\f"
  else if (n <? 32) || (126 <? n) then ("\u" ++ hex4 n)%string
  else str1 c.

Fixpoint escape (s : string) : string :=
  match s with
  | EmptyString => EmptyString
  | String c s' => (escape_char c ++ escape s')%string
  end.

Definition json_string (s : string) : string :=
  String dquote (escape s ++ str1 dquote)%string.

(** Items joined by [", "] (the default item separator). *)
Fixpoint join_items (xs : list string) : string :=
  match xs with
  | [] => EmptyString
  | [x] => x
  | x :: rest => (x ++ ", " ++ join_items rest)%string
  end.

Definition json_value (v : jvalue) : string :=
  match v with
  | JStr s => json_string s
  | JList xs => ("[" ++ join_items (map json_string xs) ++ "]")%string
  end.

Definition json_item (kv : string * jvalue) : string :=
  (json_string (fst kv) ++ ": " ++ json_value (snd kv))%string.

(** [sorted(d.items())]: a stable insertion sort on the keys (Python compares
    strings by code point). *)
Fixpoint insert_item (kv : string * jvalue) (l : list (string * jvalue)) :=
  match l with
  | [] => [kv]
  | kv' :: rest =>
      if String.leb (fst kv) (fst kv') then kv :: l
      else kv' :: insert_item kv rest
  end.

Fixpoint sort_items (l : list (string * jvalue)) : list (string * jvalue) :=
  match l with
  | [] => []
  | kv :: rest => insert_item kv (sort_items rest)
  end.

Definition json_object (d : list (string * jvalue)) : string :=
  ("{" ++ join_items (map json_item d) ++ "}")%string.

Definition json_dumps_sorted (d : list (string * jvalue)) : string :=
  json_object (sort_items d).

(** [str.encode()]: UTF-8, for code points below 256. *)
Definition utf8_char (c : ascii) : list Z :=
  let n := Z.of_N (N_of_ascii c) in
  if n <? 128 then [n] else [Z.lor 192 (Z.shiftr n 6); Z.lor 128 (Z.land n 63)].

Definition str_encode (s : string) : list Z :=
  flat_map utf8_char (list_ascii_of_string s).

(** [int.from_bytes(bs, byteorder='big')] *)
Definition int_from_bytes_big (bs : list Z) : Z :=
  fold_left (fun acc b => acc * 256 + b) bs 0.

(** ** [Aircraft] *)

Record Aircraft := mkAircraft {
  m_total : float;
  m_fuselage : float;
  wing_density : float;
  spar_density : float;
  mainwing_span : float;
  mainwing_AR : float;
  mainwing_taper : float;
  mainwing_twist : float;
  mainwing_sweepback : float;
  mainwing_dihedral : float;
  mainwing_incidence : float;
  flap_start : list float;
  flap_end : list float;
  flap_angle : list float;
  flap_c_ratio : list float;
  horizontal_volume_ratio : float;
  horizontal_area_ratio : float;
  horizontal_AR : float;
  horizontal_taper : float;
  horizontal_ThickChord : float;
  vertical_volume_ratio : float;
  vertical_taper : float;
  vertical_ThickChord : float
}.

(** The dictionary literal of [__hash__], in the order it is written. *)
Definition hash_dict (self : Aircraft) : list (string * jvalue) :=
  [ ("m_total", JStr (format_number (m_total self)));
    ("m_fuselage", JStr (format_number (m_fuselage self)));
    ("wing_density", JStr (format_number (wing_density self)));
    ("spar_density", JStr (format_number (spar_density self)));
    ("mainwing_span", JStr (format_number (mainwing_span self)));
    ("mainwing_AR", JStr (format_number (mainwing_AR self)));
    ("mainwing_taper", JStr (format_number (mainwing_taper self)));
    ("mainwing_twist", JStr (format_number (mainwing_twist self)));
    ("mainwing_sweepback", JStr (format_number (mainwing_sweepback self)));
    ("mainwing_dihedral", JStr (format_number (mainwing_dihedral self)));
    ("mainwing_incidence", JStr (format_number (mainwing_incidence self)));
    ("flap_start", JList (map format_number (flap_start self)));
    ("flap_end", JList (map format_number (flap_end self)));
    ("flap_angle", JList (map format_number (flap_angle self)));
    ("flap_c_ratio", JList (map format_number (flap_c_ratio self)));
    ("horizontal_volume_ratio", JStr (format_number (horizontal_volume_ratio self)));
    ("horizontal_area_ratio", JStr (format_number (horizontal_area_ratio self)));
    ("horizontal_AR", JStr (format_number (horizontal_AR self)));
    ("horizontal_taper", JStr (format_number (horizontal_taper self)));
    ("horizontal_ThickChord", JStr (format_number (horizontal_ThickChord self)));
    ("vertical_volume_ratio", JStr (format_number (vertical_volume_ratio self)));
    ("vertical_taper", JStr (format_number (vertical_taper self)));
    ("vertical_ThickChord", JStr (format_number (vertical_ThickChord self))) ]%string.


(** [d[k]] on the dictionary that is hashed. *)
Fixpoint lookup_item (k : string) (d : list (string * jvalue)) : option jvalue :=
  match d with
  | [] => None
  | (k', v) :: rest => if String.eqb k' k then Some v else lookup_item k rest
  end.

(** The last three lines of [__hash__], on any dictionary. *)
Definition hash_of_dict (d : list (string * jvalue)) : Z :=
  let json_str := json_dumps_sorted d in
  let hash_obj := SHA256.digest (str_encode json_str) in
  int_from_bytes_big (firstn 8 hash_obj).

(** The value [__hash__] computes: the fingerprint of the aircraft. *)
Definition fingerprint (self : Aircraft) : Z := hash_of_dict (hash_dict self).

(** ** Exceptions *)

Inductive type_error :=
  | UnexpectedKeyword (k : string)
  | MissingArguments (ks : list string)
  | MultipleValues (k : string).

(** [TypeError] is what a dataclass [__init__] raises on bad keyword
    arguments.  [InvalidConfiguration] is named by the specification only:
    nothing in [models.py] raises it.  [IllTyped] is no Python exception: the
    value under that key does not have the annotated type, which Python stores
    unchecked and the typed records below cannot hold. *)
Inductive exception :=
  | TypeError (e : type_error)
  | InvalidConfiguration
  | IllTyped (k : string).

Inductive outcome (A : Type) :=
  | Returns (x : A)
  | Raises (e : exception).
Arguments Returns {A} x.
Arguments Raises {A} e.

Definition bind {A B : Type} (c : outcome A) (k : A -> outcome B) : outcome B :=
  match c with
  | Returns x => k x
  | Raises e => Raises e
  end.

Notation "x <- c ;; k" := (bind c (fun x => k))
  (at level 61, c at next level, right associativity).

(** [Aircraft.__hash__]: one expression after another, none of which raises
    on floats and lists of floats. *)
Definition __hash__ (self : Aircraft) : outcome Z := Returns (fingerprint self).

(** ** Dictionaries and keyword calls *)

Inductive value :=
  | VFloat (x : float)
  | VList (xs : list float)
  | VArray (xs : list float).

(** A [dict] in insertion order. *)
Definition dict := list (string * value).

Definition has_key (k : string) (d : dict) : bool :=
  existsb (fun kv => String.eqb (fst kv) k) d.

Fixpoint lookup (k : string) (d : dict) : option value :=
  match d with
  | [] => None
  | (k', v) :: rest => if String.eqb k' k then Some v else lookup k rest
  end.

(** [d[k] = v]: an existing key keeps its place. *)
Fixpoint dict_set (d : dict) (k : string) (v : value) : dict :=
  match d with
  | [] => [(k, v)]
  | (k', v') :: rest =>
      if String.eqb k' k then (k, v) :: rest else (k', v') :: dict_set rest k v
  end.

(** [{key(k): v for k, v in d.items() if keep(k)}] *)
Definition dict_comprehension (key : string -> string) (keep : string -> bool) (d : dict) : dict :=
  fold_left (fun acc kv => if keep (fst kv) then dict_set acc (key (fst kv)) (snd kv) else acc) d [].

(** [sub in s] *)
Fixpoint str_in (sub s : string) : bool :=
  prefix sub s ||
  match s with
  | EmptyString => false
  | String _ s' => str_in sub s'
  end.

(** [s.replace(old, new)] for a non-empty [old]: every occurrence, left to
    right, not overlapping.  [skip] counts the characters of an occurrence
    still to drop. *)
Fixpoint replace_from (old new : string) (skip : nat) (s : string) : string :=
  match s with
  | EmptyString => EmptyString
  | String c s' =>
      match skip with
      | S n => replace_from old new n s'
      | O =>
          if prefix old s
          then (new ++ replace_from old new (String.length old - 1) s')%string
          else String c (replace_from old new 0 s')
      end
  end.

Definition str_replace (old new s : string) : string := replace_from old new 0 s.

Definition arg_float (kw : dict) (k : string) : outcome float :=
  match lookup k kw with
  | Some (VFloat x) => Returns x
  | Some _ => Raises (IllTyped k)
  | None => Raises (TypeError (MissingArguments [k]))
  end.

Definition arg_list (kw : dict) (k : string) : outcome (list float) :=
  match lookup k kw with
  | Some (VList xs) => Returns xs
  | Some _ => Raises (IllTyped k)
  | None => Raises (TypeError (MissingArguments [k]))
  end.

Definition arg_array (kw : dict) (k : string) : outcome (list float) :=
  match lookup k kw with
  | Some (VArray xs) => Returns xs
  | Some _ => Raises (IllTyped k)
  | None => Raises (TypeError (MissingArguments [k]))
  end.

(** The checks of a call [f( **kw )] against the parameter names [fields],
    [keys] being the keywords passed. *)
Definition check_keywords (fields keys : list string) : outcome unit :=
  match filter (fun k => negb (existsb (String.eqb k) fields)) keys with
  | k :: _ => Raises (TypeError (UnexpectedKeyword k))
  | [] =>
      match filter (fun f => negb (existsb (String.eqb f) keys)) fields with
      | [] => Returns tt
      | ks => Raises (TypeError (MissingArguments ks))
      end
  end.

Definition Aircraft_fields : list string :=
  [
   "m_total"; "m_fuselage"; "wing_density";
   "spar_density"; "mainwing_span"; "mainwing_AR";
   "mainwing_taper"; "mainwing_twist"; "mainwing_sweepback";
   "mainwing_dihedral"; "mainwing_incidence"; "flap_start";
   "flap_end"; "flap_angle"; "flap_c_ratio";
   "horizontal_volume_ratio"; "horizontal_area_ratio"; "horizontal_AR";
   "horizontal_taper"; "horizontal_ThickChord"; "vertical_volume_ratio";
   "vertical_taper"; "vertical_ThickChord" ]%string.

(** [Aircraft( **kw )] *)
Definition Aircraft_init (kw : dict) : outcome Aircraft :=
  (_ <- check_keywords Aircraft_fields (map fst kw) ;;
      m_total' <- arg_float kw "m_total" ;;
      m_fuselage' <- arg_float kw "m_fuselage" ;;
      wing_density' <- arg_float kw "wing_density" ;;
      spar_density' <- arg_float kw "spar_density" ;;
      mainwing_span' <- arg_float kw "mainwing_span" ;;
      mainwing_AR' <- arg_float kw "mainwing_AR" ;;
      mainwing_taper' <- arg_float kw "mainwing_taper" ;;
      mainwing_twist' <- arg_float kw "mainwing_twist" ;;
      mainwing_sweepback' <- arg_float kw "mainwing_sweepback" ;;
      mainwing_dihedral' <- arg_float kw "mainwing_dihedral" ;;
      mainwing_incidence' <- arg_float kw "mainwing_incidence" ;;
      flap_start' <- arg_list kw "flap_start" ;;
      flap_end' <- arg_list kw "flap_end" ;;
      flap_angle' <- arg_list kw "flap_angle" ;;
      flap_c_ratio' <- arg_list kw "flap_c_ratio" ;;
      horizontal_volume_ratio' <- arg_float kw "horizontal_volume_ratio" ;;
      horizontal_area_ratio' <- arg_float kw "horizontal_area_ratio" ;;
      horizontal_AR' <- arg_float kw "horizontal_AR" ;;
      horizontal_taper' <- arg_float kw "horizontal_taper" ;;
      horizontal_ThickChord' <- arg_float kw "horizontal_ThickChord" ;;
      vertical_volume_ratio' <- arg_float kw "vertical_volume_ratio" ;;
      vertical_taper' <- arg_float kw "vertical_taper" ;;
      vertical_ThickChord' <- arg_float kw "vertical_ThickChord" ;;
      Returns (mkAircraft m_total' m_fuselage' wing_density' spar_density' mainwing_span' mainwing_AR' mainwing_taper' mainwing_twist' mainwing_sweepback' mainwing_dihedral' mainwing_incidence' flap_start' flap_end' flap_angle' flap_c_ratio' horizontal_volume_ratio' horizontal_area_ratio' horizontal_AR' horizontal_taper' horizontal_ThickChord' vertical_volume_ratio' vertical_taper' vertical_ThickChord'))%string.

(** ** [AircraftAnalysisResults] *)

Record AircraftAnalysisResults := mkAircraftAnalysisResults {
  aircraft : Aircraft;
  m_boom : float;
  m_wing : float;
  m_fuel : float;
  Lw : float;
  Lh : float;
  span : float;
  AR : float;
  taper : float;
  twist : float;
  Sref : float;
  alpha_list : list float;
  AOA_stall : float;
  AOA_takeoff_max : float;
  AOA_climb_max : float;
  AOA_turn_max : float;
  CL : list float;
  CL_max : float;
  CD_wing : list float;
  CD_fuse : list float;
  CD_total : list float;
  CL_flap_max : float;
  CL_flap_zero : float;
  CD_flap_max : float;
  CD_flap_zero : float
}.

Definition AircraftAnalysisResults_fields : list string :=
  ("aircraft" ::
  [
   "m_boom"; "m_wing"; "m_fuel"; "Lw";
   "Lh"; "span"; "AR"; "taper";
   "twist"; "Sref"; "alpha_list"; "AOA_stall";
   "AOA_takeoff_max"; "AOA_climb_max"; "AOA_turn_max"; "CL";
   "CL_max"; "CD_wing"; "CD_fuse"; "CD_total";
   "CL_flap_max"; "CL_flap_zero"; "CD_flap_max"; "CD_flap_zero" ])%string.

(** [cls( **kw, aircraft=aircraft )] *)
Definition AircraftAnalysisResults_init (kw : dict) (aircraft' : Aircraft)
  : outcome AircraftAnalysisResults :=
  (if has_key "aircraft" kw then Raises (TypeError (MultipleValues "aircraft"))
   else
      _ <- check_keywords AircraftAnalysisResults_fields (map fst kw ++ ["aircraft"])%list ;;
      m_boom' <- arg_float kw "m_boom" ;;
      m_wing' <- arg_float kw "m_wing" ;;
      m_fuel' <- arg_float kw "m_fuel" ;;
      Lw' <- arg_float kw "Lw" ;;
      Lh' <- arg_float kw "Lh" ;;
      span' <- arg_float kw "span" ;;
      AR' <- arg_float kw "AR" ;;
      taper' <- arg_float kw "taper" ;;
      twist' <- arg_float kw "twist" ;;
      Sref' <- arg_float kw "Sref" ;;
      alpha_list' <- arg_list kw "alpha_list" ;;
      AOA_stall' <- arg_float kw "AOA_stall" ;;
      AOA_takeoff_max' <- arg_float kw "AOA_takeoff_max" ;;
      AOA_climb_max' <- arg_float kw "AOA_climb_max" ;;
      AOA_turn_max' <- arg_float kw "AOA_turn_max" ;;
      CL' <- arg_array kw "CL" ;;
      CL_max' <- arg_float kw "CL_max" ;;
      CD_wing' <- arg_list kw "CD_wing" ;;
      CD_fuse' <- arg_list kw "CD_fuse" ;;
      CD_total' <- arg_list kw "CD_total" ;;
      CL_flap_max' <- arg_float kw "CL_flap_max" ;;
      CL_flap_zero' <- arg_float kw "CL_flap_zero" ;;
      CD_flap_max' <- arg_float kw "CD_flap_max" ;;
      CD_flap_zero' <- arg_float kw "CD_flap_zero" ;;
      Returns (mkAircraftAnalysisResults aircraft' m_boom' m_wing' m_fuel' Lw' Lh' span' AR' taper' twist' Sref' alpha_list' AOA_stall' AOA_takeoff_max' AOA_climb_max' AOA_turn_max' CL' CL_max' CD_wing' CD_fuse' CD_total' CL_flap_max' CL_flap_zero' CD_flap_max' CD_flap_zero'))%string.

(** [AircraftAnalysisResults.fromDict] *)
Definition fromDict (datadict : dict) : outcome AircraftAnalysisResults :=
  (aircraft' <- Aircraft_init
     (dict_comprehension (fun k => str_replace "aircraft." "" k)
                         (fun k => str_in "aircraft." k) datadict) ;;
   let datadict := dict_comprehension (fun k => k)
                         (fun k => negb (str_in "aircraft." k)) datadict in
   AircraftAnalysisResults_init datadict aircraft')%string.

(** Modelled from the spec: the flat mapping of a result record, which
    [models.py] does not build itself.  Every field is stored under its own
    name, those of the nested aircraft under ["aircraft." ++ name]. *)
Definition flatten (r : AircraftAnalysisResults) : dict :=
  [
    ("aircraft.m_total", VFloat (m_total (aircraft r)));
    ("aircraft.m_fuselage", VFloat (m_fuselage (aircraft r)));
    ("aircraft.wing_density", VFloat (wing_density (aircraft r)));
    ("aircraft.spar_density", VFloat (spar_density (aircraft r)));
    ("aircraft.mainwing_span", VFloat (mainwing_span (aircraft r)));
    ("aircraft.mainwing_AR", VFloat (mainwing_AR (aircraft r)));
    ("aircraft.mainwing_taper", VFloat (mainwing_taper (aircraft r)));
    ("aircraft.mainwing_twist", VFloat (mainwing_twist (aircraft r)));
    ("aircraft.mainwing_sweepback", VFloat (mainwing_sweepback (aircraft r)));
    ("aircraft.mainwing_dihedral", VFloat (mainwing_dihedral (aircraft r)));
    ("aircraft.mainwing_incidence", VFloat (mainwing_incidence (aircraft r)));
    ("aircraft.flap_start", VList (flap_start (aircraft r)));
    ("aircraft.flap_end", VList (flap_end (aircraft r)));
    ("aircraft.flap_angle", VList (flap_angle (aircraft r)));
    ("aircraft.flap_c_ratio", VList (flap_c_ratio (aircraft r)));
    ("aircraft.horizontal_volume_ratio", VFloat (horizontal_volume_ratio (aircraft r)));
    ("aircraft.horizontal_area_ratio", VFloat (horizontal_area_ratio (aircraft r)));
    ("aircraft.horizontal_AR", VFloat (horizontal_AR (aircraft r)));
    ("aircraft.horizontal_taper", VFloat (horizontal_taper (aircraft r)));
    ("aircraft.horizontal_ThickChord", VFloat (horizontal_ThickChord (aircraft r)));
    ("aircraft.vertical_volume_ratio", VFloat (vertical_volume_ratio (aircraft r)));
    ("aircraft.vertical_taper", VFloat (vertical_taper (aircraft r)));
    ("aircraft.vertical_ThickChord", VFloat (vertical_ThickChord (aircraft r)));
    ("m_boom", VFloat (m_boom r));
    ("m_wing", VFloat (m_wing r));
    ("m_fuel", VFloat (m_fuel r));
    ("Lw", VFloat (Lw r));
    ("Lh", VFloat (Lh r));
    ("span", VFloat (span r));
    ("AR", VFloat (AR r));
    ("taper", VFloat (taper r));
    ("twist", VFloat (twist r));
    ("Sref", VFloat (Sref r));
    ("alpha_list", VList (alpha_list r));
    ("AOA_stall", VFloat (AOA_stall r));
    ("AOA_takeoff_max", VFloat (AOA_takeoff_max r));
    ("AOA_climb_max", VFloat (AOA_climb_max r));
    ("AOA_turn_max", VFloat (AOA_turn_max r));
    ("CL", VArray (CL r));
    ("CL_max", VFloat (CL_max r));
    ("CD_wing", VList (CD_wing r));
    ("CD_fuse", VList (CD_fuse r));
    ("CD_total", VList (CD_total r));
    ("CL_flap_max", VFloat (CL_flap_max r));
    ("CL_flap_zero", VFloat (CL_flap_zero r));
    ("CD_flap_max", VFloat (CD_flap_max r));
    ("CD_flap_zero", VFloat (CD_flap_zero r)) ]%string.

(** The aircraft of the conformance example. *)
Definition example_aircraft : Aircraft :=
  mkAircraft (literal 5 1) (literal 1 1) (literal 1 10) (literal 2 10)
    (literal 2 1) (literal 8 1) (literal 5 10)
    (S754_zero false) (S754_zero false) (S754_zero false) (S754_zero false)
    [literal 1 10] [literal 3 10] [literal 10 1] [literal 2 10]
    (literal 5 10) (literal 2 10) (literal 4 1) (literal 6 10) (literal 12 100)
    (literal 4 100) (literal 6 10) (literal 12 100).


(** ** Views of an aircraft *)

Definition scalars (a : Aircraft) : list float :=
  [ m_total a;
    m_fuselage a;
    wing_density a;
    spar_density a;
    mainwing_span a;
    mainwing_AR a;
    mainwing_taper a;
    mainwing_twist a;
    mainwing_sweepback a;
    mainwing_dihedral a;
    mainwing_incidence a;
    horizontal_volume_ratio a;
    horizontal_area_ratio a;
    horizontal_AR a;
    horizontal_taper a;
    horizontal_ThickChord a;
    vertical_volume_ratio a;
    vertical_taper a;
    vertical_ThickChord a ].

Definition sequences (a : Aircraft) : list (list float) :=
  [ flap_start a; flap_end a; flap_angle a; flap_c_ratio a ].

Definition all_values (a : Aircraft) : list float :=
  scalars a ++ List.concat (sequences a).

Definition all_finite (a : Aircraft) : bool := forallb is_finite (all_values a).

Definition has_non_finite (a : Aircraft) : bool :=
  existsb (fun x => negb (is_finite x)) (all_values a).

Inductive flap_field := Flap_start | Flap_end | Flap_angle | Flap_c_ratio.

Definition get_flap (f : flap_field) (a : Aircraft) : list float :=
  match f with
  | Flap_start => flap_start a
  | Flap_end => flap_end a
  | Flap_angle => flap_angle a
  | Flap_c_ratio => flap_c_ratio a
  end.

Definition set_flap (f : flap_field) (l : list float) (a : Aircraft) : Aircraft :=
  match f with
  | Flap_start => mkAircraft (m_total a) (m_fuselage a) (wing_density a) (spar_density a) (mainwing_span a) (mainwing_AR a) (mainwing_taper a) (mainwing_twist a) (mainwing_sweepback a) (mainwing_dihedral a) (mainwing_incidence a) l (flap_end a) (flap_angle a) (flap_c_ratio a) (horizontal_volume_ratio a) (horizontal_area_ratio a) (horizontal_AR a) (horizontal_taper a) (horizontal_ThickChord a) (vertical_volume_ratio a) (vertical_taper a) (vertical_ThickChord a)
  | Flap_end => mkAircraft (m_total a) (m_fuselage a) (wing_density a) (spar_density a) (mainwing_span a) (mainwing_AR a) (mainwing_taper a) (mainwing_twist a) (mainwing_sweepback a) (mainwing_dihedral a) (mainwing_incidence a) (flap_start a) l (flap_angle a) (flap_c_ratio a) (horizontal_volume_ratio a) (horizontal_area_ratio a) (horizontal_AR a) (horizontal_taper a) (horizontal_ThickChord a) (vertical_volume_ratio a) (vertical_taper a) (vertical_ThickChord a)
  | Flap_angle => mkAircraft (m_total a) (m_fuselage a) (wing_density a) (spar_density a) (mainwing_span a) (mainwing_AR a) (mainwing_taper a) (mainwing_twist a) (mainwing_sweepback a) (mainwing_dihedral a) (mainwing_incidence a) (flap_start a) (flap_end a) l (flap_c_ratio a) (horizontal_volume_ratio a) (horizontal_area_ratio a) (horizontal_AR a) (horizontal_taper a) (horizontal_ThickChord a) (vertical_volume_ratio a) (vertical_taper a) (vertical_ThickChord a)
  | Flap_c_ratio => mkAircraft (m_total a) (m_fuselage a) (wing_density a) (spar_density a) (mainwing_span a) (mainwing_AR a) (mainwing_taper a) (mainwing_twist a) (mainwing_sweepback a) (mainwing_dihedral a) (mainwing_incidence a) (flap_start a) (flap_end a) (flap_angle a) l (horizontal_volume_ratio a) (horizontal_area_ratio a) (horizontal_AR a) (horizontal_taper a) (horizontal_ThickChord a) (vertical_volume_ratio a) (vertical_taper a) (vertical_ThickChord a)
  end.

Definition set_m_total (x : float) (a : Aircraft) : Aircraft :=
  mkAircraft x (m_fuselage a) (wing_density a) (spar_density a) (mainwing_span a) (mainwing_AR a) (mainwing_taper a) (mainwing_twist a) (mainwing_sweepback a) (mainwing_dihedral a) (mainwing_incidence a) (flap_start a) (flap_end a) (flap_angle a) (flap_c_ratio a) (horizontal_volume_ratio a) (horizontal_area_ratio a) (horizontal_AR a) (horizontal_taper a) (horizontal_ThickChord a) (vertical_volume_ratio a) (vertical_taper a) (vertical_ThickChord a).

Definition set_mainwing_twist (x : float) (a : Aircraft) : Aircraft :=
  mkAircraft (m_total a) (m_fuselage a) (wing_density a) (spar_density a) (mainwing_span a) (mainwing_AR a) (mainwing_taper a) x (mainwing_sweepback a) (mainwing_dihedral a) (mainwing_incidence a) (flap_start a) (flap_end a) (flap_angle a) (flap_c_ratio a) (horizontal_volume_ratio a) (horizontal_area_ratio a) (horizontal_AR a) (horizontal_taper a) (horizontal_ThickChord a) (vertical_volume_ratio a) (vertical_taper a) (vertical_ThickChord a).

Definition set_mainwing_span (x : float) (a : Aircraft) : Aircraft :=
  mkAircraft (m_total a) (m_fuselage a) (wing_density a) (spar_density a) x (mainwing_AR a) (mainwing_taper a) (mainwing_twist a) (mainwing_sweepback a) (mainwing_dihedral a) (mainwing_incidence a) (flap_start a) (flap_end a) (flap_angle a) (flap_c_ratio a) (horizontal_volume_ratio a) (horizontal_area_ratio a) (horizontal_AR a) (horizontal_taper a) (horizontal_ThickChord a) (vertical_volume_ratio a) (vertical_taper a) (vertical_ThickChord a).

(** ** The dataclass [__eq__]: the tuples of fields compared with [==] *)

Fixpoint list_eqb (xs ys : list float) : bool :=
  match xs, ys with
  | [], [] => true
  | x :: xs', y :: ys' => SFeqb x y && list_eqb xs' ys'
  | _, _ => false
  end.

Definition Aircraft_eq (a b : Aircraft) : bool :=
  list_eqb (scalars a) (scalars b) &&
  list_eqb (flap_start a) (flap_start b) && list_eqb (flap_end a) (flap_end b) &&
  list_eqb (flap_angle a) (flap_angle b) && list_eqb (flap_c_ratio a) (flap_c_ratio b).

(** ** The fingerprint as the specification words it *)

(** The magnitude [m * 2^e] as a fraction. *)
Definition magnitude (m : positive) (e : Z) : Z * Z :=
  if 0 <=? e then (Z.pos m * 2 ^ e, 1) else (Z.pos m, 2 ^ (- e)).

(** Millionths, a half rounded away from zero: [floor (x * 10^6 + 1/2)] on
    the magnitude. *)
Definition half_away6 (m : positive) (e : Z) : Z :=
  let '(n, d) := magnitude m e in
  (2 * n * 1000000 + d) / (2 * d).

(** Millionths, a half rounded to the even neighbour. *)
Definition half_even6 (m : positive) (e : Z) : Z :=
  let '(n, d) := magnitude m e in
  let t := 2 * n * 1000000 + d in
  let q := t / (2 * d) in
  if (t mod (2 * d) =? 0) && Z.odd q then q - 1 else q.

(** A formatting of finite numbers from a rounding to millionths. *)
Definition format_with (rnd : positive -> Z -> Z) (x : float) : string :=
  match x with
  | S754_zero s => fixed6 s 0
  | S754_finite s m e => fixed6 s (rnd m e)
  | _ => format_number x
  end.

(** The mapping with its keys in lexicographic order. *)
Definition sorted_mapping (fmt : float -> string) (a : Aircraft) : list (string * jvalue) :=
  [ ("flap_angle", JList (map fmt (flap_angle a)));
    ("flap_c_ratio", JList (map fmt (flap_c_ratio a)));
    ("flap_end", JList (map fmt (flap_end a)));
    ("flap_start", JList (map fmt (flap_start a)));
    ("horizontal_AR", JStr (fmt (horizontal_AR a)));
    ("horizontal_ThickChord", JStr (fmt (horizontal_ThickChord a)));
    ("horizontal_area_ratio", JStr (fmt (horizontal_area_ratio a)));
    ("horizontal_taper", JStr (fmt (horizontal_taper a)));
    ("horizontal_volume_ratio", JStr (fmt (horizontal_volume_ratio a)));
    ("m_fuselage", JStr (fmt (m_fuselage a)));
    ("m_total", JStr (fmt (m_total a)));
    ("mainwing_AR", JStr (fmt (mainwing_AR a)));
    ("mainwing_dihedral", JStr (fmt (mainwing_dihedral a)));
    ("mainwing_incidence", JStr (fmt (mainwing_incidence a)));
    ("mainwing_span", JStr (fmt (mainwing_span a)));
    ("mainwing_sweepback", JStr (fmt (mainwing_sweepback a)));
    ("mainwing_taper", JStr (fmt (mainwing_taper a)));
    ("mainwing_twist", JStr (fmt (mainwing_twist a)));
    ("spar_density", JStr (fmt (spar_density a)));
    ("vertical_ThickChord", JStr (fmt (vertical_ThickChord a)));
    ("vertical_taper", JStr (fmt (vertical_taper a)));
    ("vertical_volume_ratio", JStr (fmt (vertical_volume_ratio a)));
    ("wing_density", JStr (fmt (wing_density a))) ]%string.

(** Eight bytes as a big-endian unsigned integer. *)
Definition be64 (bs : list Z) : Z :=
  nth 0 bs 0 * 2 ^ 56 + nth 1 bs 0 * 2 ^ 48 + nth 2 bs 0 * 2 ^ 40 + nth 3 bs 0 * 2 ^ 32 +
  nth 4 bs 0 * 2 ^ 24 + nth 5 bs 0 * 2 ^ 16 + nth 6 bs 0 * 2 ^ 8 + nth 7 bs 0.

Definition spec_fingerprint (rnd : positive -> Z -> Z) (a : Aircraft) : Z :=
  be64 (SHA256.digest (str_encode (json_object (sorted_mapping (format_with rnd) a)))).

(** ** Agreement of two numbers to six decimal places *)

(** The first six decimals of a finite number, as signed millionths. *)
Definition trunc6 (x : float) : option Z :=
  match x with
  | S754_zero _ => Some 0
  | S754_finite s m e =>
      let '(n, d) := magnitude m e in
      Some (cond_Zopp s (n * 1000000 / d))
  | _ => None
  end.

(** Sign and nearest millionth: all that [format_number] shows of a finite
    number. *)
Definition round_key (x : float) : option (bool * Z) :=
  match x with
  | S754_zero s => Some (s, 0)
  | S754_finite s m e => Some (s, round6 m e)
  | _ => None
  end.

Definition agree_trunc6 (x y : float) : bool :=
  match trunc6 x, trunc6 y with
  | Some p, Some q => p =? q
  | _, _ => false
  end.

(** The same nearest millionth as a number, whatever the sign of a zero. *)
Definition agree_numeric6 (x y : float) : bool :=
  match round_key x, round_key y with
  | Some (_, p), Some (_, q) => p =? q
  | _, _ => false
  end.

Definition agree_round6 (x y : float) : bool :=
  match round_key x, round_key y with
  | Some (s, p), Some (s', q) => Bool.eqb s s' && (p =? q)
  | _, _ => false
  end.

Fixpoint forall2b (r : float -> float -> bool) (xs ys : list float) : bool :=
  match xs, ys with
  | [], [] => true
  | x :: xs', y :: ys' => r x y && forall2b r xs' ys'
  | _, _ => false
  end.

(** Two aircraft related field by field, and element by element. *)
Definition fieldwise (r : float -> float -> bool) (a b : Aircraft) : bool :=
  forall2b r (scalars a) (scalars b) &&
  forall2b r (flap_start a) (flap_start b) && forall2b r (flap_end a) (flap_end b) &&
  forall2b r (flap_angle a) (flap_angle b) && forall2b r (flap_c_ratio a) (flap_c_ratio b).

(** ** The partition by prefix, as the specification words it *)

Definition strip_prefix (p s : string) : string :=
  substring (String.length p) (String.length s - String.length p) s.

Definition fromDict_by_prefix (datadict : dict) : outcome AircraftAnalysisResults :=
  (aircraft' <- Aircraft_init
     (dict_comprehension (strip_prefix "aircraft.") (prefix "aircraft.") datadict) ;;
   let datadict := dict_comprehension (fun k => k)
                         (fun k => negb (prefix "aircraft." k)) datadict in
   AircraftAnalysisResults_init datadict aircraft')%string.

(** Where every key that contains ["aircraft."] has it in front and nowhere
    else, [fromDict] is the partition by prefix. *)
Definition well_placed (k : string) : bool :=
  Bool.eqb (str_in "aircraft." k) (prefix "aircraft." k) &&
  (negb (prefix "aircraft." k)
   || String.eqb (str_replace "aircraft." "" k) (strip_prefix "aircraft." k)).

(** ** Concrete aircraft and mappings *)

(** [m_total = 0.0078125], that is [1/128]: exactly halfway between
    [0.007812] and [0.007813]. *)
Definition tie_aircraft : Aircraft := set_m_total (double_of 1 (-7)) example_aircraft.

(** [mainwing_span = 2 + 2^-21 = 2.00000047...] and
    [2 + 3 * 2^-22 = 2.00000071...]: the same first six decimals. *)
Definition span_low : Aircraft := set_mainwing_span (double_of 8388610 (-22)) example_aircraft.
Definition span_high : Aircraft := set_mainwing_span (double_of 8388611 (-22)) example_aircraft.

(** [mainwing_span = 2.0000001] *)
Definition span_beyond : Aircraft :=
  set_mainwing_span (literal 20000001 10000000) example_aircraft.

(** [mainwing_span = 2.000001], the double nearest to it. *)
Definition span_wider : Aircraft :=
  set_mainwing_span (literal 2000001 1000000) example_aircraft.

Definition nan_aircraft : Aircraft := set_m_total S754_nan example_aircraft.
Definition inf_aircraft : Aircraft :=
  set_flap Flap_angle [S754_infinity true] example_aircraft.

(** Flap lists of unequal lengths. *)
Definition ragged_aircraft : Aircraft := set_flap Flap_start [] example_aircraft.

(** [0.1] and the next double above it. *)
Definition tenth : float := literal 1 10.
Definition tenth_up : float := S754_finite false 7205759403792795 (-56).

(** An aircraft with two flap segments. *)
Definition two_flap_aircraft : Aircraft :=
  set_flap Flap_start [literal 1 10; literal 4 10]
    (set_flap Flap_end [literal 3 10; literal 6 10]
       (set_flap Flap_angle [literal 10 1; literal 20 1]
          (set_flap Flap_c_ratio [literal 2 10; literal 2 10] example_aircraft))).

Definition twin_flaps : Aircraft :=
  set_flap Flap_start [tenth; tenth_up] two_flap_aircraft.

(** [mainwing_twist = -0.0] where the example has [0.0]. *)
Definition negzero_twist : Aircraft := set_mainwing_twist (S754_zero true) example_aircraft.

Definition example_results : AircraftAnalysisResults :=
  mkAircraftAnalysisResults example_aircraft
    (literal 1 10) (literal 4 10) (literal 3 10) (literal 9 10) (literal 6 10)
    (literal 2 1) (literal 8 1) (literal 5 10) (S754_zero false) (literal 5 10)
    [S754_zero false; literal 5 1] (literal 13 1) (literal 10 1) (literal 8 1) (literal 8 1)
    [literal 2 10; literal 6 10] (literal 14 10)
    [literal 2 100; literal 4 100] [literal 1 100; literal 1 100] [literal 3 100; literal 5 100]
    (literal 19 10) (literal 9 10) (literal 15 100) (literal 5 100).

(** The flat mapping of [example_results], the total mass stored under
    ["m_aircraft.total"]: a key with ["aircraft."] inside, not in front. *)
Definition misplaced_key : dict :=
  (("m_aircraft.total", VFloat (literal 5 1)) :: tl (flatten example_results))%string.


(** ** Vocabulary of the proofs *)

(** The order [sort_items] sorts by. *)
Definition key_le (x y : string * jvalue) : Prop := String.leb (fst x) (fst y) = true.

(** Characters that [json.dumps] writes as they are and that cannot end a
    JSON string: printable ASCII other than the double quote and the
    backslash. *)
Definition plain_char (c : ascii) : bool :=
  let n := Z.of_N (N_of_ascii c) in
  (32 <=? n) && (n <=? 126) && negb (n =? 34) && negb (n =? 92).

Fixpoint plainb (s : string) : bool :=
  match s with
  | EmptyString => true
  | String c s' => plain_char c && plainb s'
  end.

Definition plain_value (v : jvalue) : bool :=
  match v with
  | JStr s => plainb s
  | JList xs => forallb plainb xs
  end.

(** The elements of a JSON array of strings, without the brackets. *)
Definition elems (xs : list string) : string := join_items (map json_string xs).

(** Decimal digits. *)
Definition is_digit (c : ascii) : bool :=
  let n := Z.of_N (N_of_ascii c) in (48 <=? n) && (n <=? 57).

Fixpoint digitsb (s : string) : bool :=
  match s with
  | EmptyString => true
  | String c s' => is_digit c && digitsb s'
  end.

(** ** Numbers at least a millionth apart *)

(** The exact value of a finite number, as a fraction with a positive
    denominator. *)
Definition exact (x : float) : option (Z * Z) :=
  match x with
  | S754_zero _ => Some (0, 1)
  | S754_finite s m e => let '(n, d) := magnitude m e in Some (cond_Zopp s n, d)
  | _ => None
  end.

(** [|x - y| >= 10^-6], on exact values. *)
Definition apart6 (x y : float) : Prop :=
  match exact x, exact y with
  | Some (nx, dx), Some (ny, dy) => dx * dy <= 1000000 * Z.abs (nx * dy - ny * dx)
  | _, _ => False
  end.

(** The two aircraft differ in one scalar field, by a millionth or more,
    and in nothing else. *)
Definition differ_in_scalar (a b : Aircraft) : Prop :=
  sequences a = sequences b /\
  exists i, apart6 (nth i (scalars a) S754_nan) (nth i (scalars b) S754_nan) /\
            forall j, j <> i -> nth j (scalars a) S754_nan = nth j (scalars b) S754_nan.

(** The two aircraft differ in one flap sequence and in nothing else; the
    two sequences have the same length and are a millionth or more apart
    wherever they differ. *)
Definition differ_in_sequence (a b : Aircraft) : Prop :=
  scalars a = scalars b /\
  exists f, (forall g, g <> f -> get_flap g a = get_flap g b) /\
            get_flap f a <> get_flap f b /\
            List.length (get_flap f a) = List.length (get_flap f b) /\
            forall j, nth j (get_flap f a) S754_nan = nth j (get_flap f b) S754_nan \/
                      apart6 (nth j (get_flap f a) S754_nan) (nth j (get_flap f b) S754_nan).

Definition differ_in_one_field (a b : Aircraft) : Prop :=
  differ_in_scalar a b \/ differ_in_sequence a b.

(** The integer [__hash__] reads off the digest of a serialization, and two
    different serializations on which it is the same. *)
Definition digest_prefix (s : string) : Z :=
  int_from_bytes_big (firstn 8 (SHA256.digest (str_encode s))).

Definition prefix_collision (s1 s2 : string) : Prop :=
  s1 <> s2 /\ digest_prefix s1 = digest_prefix s2.

(** ** Orderings of a sequence *)

Fixpoint zfact (k : nat) : Z :=
  match k with
  | O => 1
  | S k' => Z.of_nat k * zfact k'
  end.

Definition remove_nth (i : nat) (l : list float) : list float :=
  firstn i l ++ skipn (S i) l.

(** The [n]-th ordering of [l], [n] read in the factorial number system:
    the element at [n mod length l] comes first. *)
Fixpoint arrangement (fuel : nat) (n : Z) (l : list float) : list float :=
  match fuel with
  | O => []
  | S fuel' =>
      let k := Z.of_nat (List.length l) in
      let i := Z.to_nat (n mod k) in
      nth i l S754_nan :: arrangement fuel' (n / k) (remove_nth i l)
  end.

Fixpoint nodupb (l : list string) : bool :=
  match l with
  | [] => true
  | x :: rest => negb (existsb (String.eqb x) rest) && nodupb rest
  end.

(** The whole numbers [0.0] to [20.0]. *)
Definition flap_positions : list float :=
  map (fun i => double_of i 0)
      [0; 1; 2; 3; 4; 5; 6; 7; 8; 9; 10; 11; 12; 13; 14; 15; 16; 17; 18; 19; 20].

(** An aircraft with 21 flap segments. *)
Definition many_flaps : Aircraft :=
  set_flap Flap_start flap_positions
    (set_flap Flap_end flap_positions
       (set_flap Flap_angle flap_positions
          (set_flap Flap_c_ratio flap_positions example_aircraft))).

(** ** Further vocabulary *)

(** The sign bit of a number ([nan] is printed without one). *)
Definition sign_bit (x : float) : bool :=
  match x with
  | S754_zero s | S754_infinity s | S754_finite s _ _ => s
  | S754_nan => false
  end.


(** Printable ASCII. *)
Definition printable_char (c : ascii) : bool :=
  let n := Z.of_N (N_of_ascii c) in (32 <=? n) && (n <=? 126).

Fixpoint printableb (s : string) : bool :=
  match s with
  | EmptyString => true
  | String c s' => printable_char c && printableb s'
  end.

(** ** Fields by name *)


(** The fields of a result record other than [aircraft], under their names. *)
Definition AircraftAnalysisResults_items (r : AircraftAnalysisResults) : dict :=
  [
    ("m_boom", VFloat (m_boom r));
    ("m_wing", VFloat (m_wing r));
    ("m_fuel", VFloat (m_fuel r));
    ("Lw", VFloat (Lw r));
    ("Lh", VFloat (Lh r));
    ("span", VFloat (span r));
    ("AR", VFloat (AR r));
    ("taper", VFloat (taper r));
    ("twist", VFloat (twist r));
    ("Sref", VFloat (Sref r));
    ("alpha_list", VList (alpha_list r));
    ("AOA_stall", VFloat (AOA_stall r));
    ("AOA_takeoff_max", VFloat (AOA_takeoff_max r));
    ("AOA_climb_max", VFloat (AOA_climb_max r));
    ("AOA_turn_max", VFloat (AOA_turn_max r));
    ("CL", VArray (CL r));
    ("CL_max", VFloat (CL_max r));
    ("CD_wing", VList (CD_wing r));
    ("CD_fuse", VList (CD_fuse r));
    ("CD_total", VList (CD_total r));
    ("CL_flap_max", VFloat (CL_flap_max r));
    ("CL_flap_zero", VFloat (CL_flap_zero r));
    ("CD_flap_max", VFloat (CD_flap_max r));
    ("CD_flap_zero", VFloat (CD_flap_zero r)) ]%string.

(** ** [PhaseType] *)

Inductive PhaseType := TAKEOFF | CLIMB | LEVEL_FLIGHT | TURN.

(** [p.value] *)
Definition PhaseType_value (p : PhaseType) : Z :=
  match p with
  | TAKEOFF => 0
  | CLIMB => 1
  | LEVEL_FLIGHT => 2
  | TURN => 3
  end.

(** [PhaseType(v)], the lookup of a member by its value; [None] stands for
    the [ValueError] of a value that no member has. *)
Definition PhaseType_of_value (v : Z) : option PhaseType :=
  if v =? 0 then Some TAKEOFF
  else if v =? 1 then Some CLIMB
  else if v =? 2 then Some LEVEL_FLIGHT
  else if v =? 3 then Some TURN
  else None.

(** * Properties *)

(** ** The digest and the integer read from it *)

Lemma byte_range (w i : Z) : 0 <= Z.land (Z.shiftr w i) 255 < 256.
Proof.
  change 255 with (Z.ones 8). rewrite Z.land_ones by lia.
  apply Z.mod_pos_bound. lia.
Qed.

Lemma byte_range0 (w : Z) : 0 <= Z.land w 255 < 256.
Proof. rewrite <- (Z.shiftr_0_r w) at 1 2. apply byte_range. Qed.

Lemma digest_first8 (msg : list Z) :
  exists s, firstn 8 (SHA256.digest msg)
            = SHA256.bytes_of_word (SHA256.sa s) ++ SHA256.bytes_of_word (SHA256.sb s)
            /\ forall n, (n < 8)%nat ->
                 nth n (SHA256.digest msg) 0
                 = nth n (SHA256.bytes_of_word (SHA256.sa s) ++ SHA256.bytes_of_word (SHA256.sb s)) 0.
Proof.
  unfold SHA256.digest.
  set (s := SHA256.blocks _ _ _). exists s. split; [reflexivity|].
  intros n Hn. do 8 (destruct n as [|n]; [reflexivity|]). lia.
Qed.

Lemma digest_length (msg : list Z) : List.length (SHA256.digest msg) = 32%nat.
Proof. reflexivity. Qed.

Lemma from_bytes_range (msg : list Z) :
  0 <= int_from_bytes_big (firstn 8 (SHA256.digest msg)) < 2 ^ 64.
Proof.
  destruct (digest_first8 msg) as [s [-> _]].
  unfold SHA256.bytes_of_word, int_from_bytes_big. cbn [app fold_left].
  pose proof (byte_range (SHA256.sa s) 24). pose proof (byte_range (SHA256.sa s) 16).
  pose proof (byte_range (SHA256.sa s) 8). pose proof (byte_range0 (SHA256.sa s)).
  pose proof (byte_range (SHA256.sb s) 24). pose proof (byte_range (SHA256.sb s) 16).
  pose proof (byte_range (SHA256.sb s) 8). pose proof (byte_range0 (SHA256.sb s)).
  change (2 ^ 64) with 18446744073709551616. lia.
Qed.

Lemma be64_from_bytes (msg : list Z) :
  be64 (SHA256.digest msg) = int_from_bytes_big (firstn 8 (SHA256.digest msg)).
Proof.
  destruct (digest_first8 msg) as [s [-> Hn]].
  unfold be64. rewrite !Hn by lia.
  unfold SHA256.bytes_of_word, int_from_bytes_big. cbn [app fold_left nth].
  change (2 ^ 56) with 72057594037927936. change (2 ^ 48) with 281474976710656.
  change (2 ^ 40) with 1099511627776. change (2 ^ 32) with 4294967296.
  change (2 ^ 24) with 16777216. change (2 ^ 16) with 65536. change (2 ^ 8) with 256.
  lia.
Qed.

Lemma fingerprint_digest_prefix (a : Aircraft) :
  fingerprint a = digest_prefix (json_dumps_sorted (hash_dict a)).
Proof. unfold fingerprint, hash_of_dict, digest_prefix. cbv zeta. reflexivity. Qed.

Lemma hash_of_dict_range (d : list (string * jvalue)) : 0 <= hash_of_dict d < 2 ^ 64.
Proof. apply from_bytes_range. Qed.

(** ** Sorting the items of a dictionary *)

Section Sorting.

Lemma ascii_compare_trans (a b c : ascii) (o : comparison) :
  Ascii.compare a b = o -> Ascii.compare b c = o -> Ascii.compare a c = o.
Proof.
  unfold Ascii.compare. intros H1 H2. destruct o.
  - apply N.compare_eq_iff in H1, H2. apply N.compare_eq_iff. congruence.
  - rewrite N.compare_lt_iff in *. eapply N.lt_trans; eassumption.
  - rewrite N.compare_gt_iff in *. eapply N.lt_trans; eassumption.
Qed.

Lemma string_compare_gt_trans (s1 s2 s3 : string) :
  String.compare s1 s2 <> Gt -> String.compare s2 s3 <> Gt -> String.compare s1 s3 <> Gt.
Proof.
  revert s2 s3. induction s1 as [|a s1 IH]; intros [|b s2] [|c s3]; cbn; try congruence.
  destruct (Ascii.compare a b) eqn:Hab; destruct (Ascii.compare b c) eqn:Hbc;
    try congruence; intros H1 H2.
  - rewrite (ascii_compare_trans a b c Eq Hab Hbc). eauto.
  - apply Ascii.compare_eq_iff in Hab. subst b. rewrite Hbc. congruence.
  - apply Ascii.compare_eq_iff in Hbc. subst c. rewrite Hab. congruence.
  - rewrite (ascii_compare_trans a b c Lt Hab Hbc). congruence.
Qed.

Lemma leb_trans (s1 s2 s3 : string) :
  String.leb s1 s2 = true -> String.leb s2 s3 = true -> String.leb s1 s3 = true.
Proof.
  unfold String.leb. intros H1 H2.
  pose proof (string_compare_gt_trans s1 s2 s3) as T.
  destruct (String.compare s1 s2); destruct (String.compare s2 s3);
    destruct (String.compare s1 s3); try reflexivity; try discriminate;
    exfalso; apply T; congruence.
Qed.

Lemma insert_item_perm (x : string * jvalue) (l : list (string * jvalue)) :
  Permutation (insert_item x l) (x :: l).
Proof.
  induction l as [|y l IH]; cbn; [reflexivity|].
  destruct (String.leb (fst x) (fst y)); [reflexivity|].
  rewrite IH. apply perm_swap.
Qed.

Lemma sort_items_perm (l : list (string * jvalue)) : Permutation (sort_items l) l.
Proof.
  induction l as [|x l IH]; cbn; [reflexivity|].
  rewrite insert_item_perm. now constructor.
Qed.

Lemma insert_item_sorted (x : string * jvalue) (l : list (string * jvalue)) :
  StronglySorted key_le l -> StronglySorted key_le (insert_item x l).
Proof.
  induction 1 as [|y l Hs IH Hall]; cbn.
  - repeat constructor.
  - destruct (String.leb (fst x) (fst y)) eqn:Hxy.
    + constructor; [now constructor|].
      constructor; [exact Hxy|].
      eapply Forall_impl; [|exact Hall]. intros z Hz. unfold key_le in *.
      eapply leb_trans; eassumption.
    + constructor; [exact IH|].
      eapply Permutation_Forall; [symmetry; apply insert_item_perm|].
      constructor; [|exact Hall].
      unfold key_le. destruct (String.leb_total (fst x) (fst y)); congruence.
Qed.

Lemma sort_items_sorted (l : list (string * jvalue)) : StronglySorted key_le (sort_items l).
Proof.
  induction l; cbn; [constructor|]. now apply insert_item_sorted.
Qed.

(** A dictionary has one sorted arrangement: its keys are distinct. *)
Lemma sorted_unique (l1 l2 : list (string * jvalue)) :
  StronglySorted key_le l1 -> StronglySorted key_le l2 ->
  Permutation l1 l2 -> NoDup (map fst l1) -> l1 = l2.
Proof.
  revert l2. induction l1 as [|x l1 IH]; intros l2 S1 S2 P ND.
  - apply Permutation_nil in P. now subst.
  - destruct l2 as [|y l2]; [symmetry in P; now apply Permutation_nil in P|].
    inversion S1 as [|? ? S1' A1]; inversion S2 as [|? ? S2' A2]; subst.
    inversion ND as [|? ? Hnin ND']; subst.
    assert (x = y) as ->.
    { assert (Hx : In x (y :: l2)) by (eapply Permutation_in; [exact P|now left]).
      assert (Hy : In y (x :: l1)) by (eapply Permutation_in; [symmetry; exact P|now left]).
      destruct Hx as [Hx|Hx]; [congruence|].
      destruct Hy as [Hy|Hy]; [congruence|].
      rewrite Forall_forall in A1, A2.
      pose proof (String.leb_antisym _ _ (A1 _ Hy) (A2 _ Hx)) as E.
      exfalso. apply Hnin. rewrite E. now apply in_map. }
    f_equal. apply IH; auto. eapply Permutation_cons_inv; exact P.
Qed.

Lemma sort_items_permutation (d d' : list (string * jvalue)) :
  Permutation d d' -> NoDup (map fst d') -> sort_items d = sort_items d'.
Proof.
  intros P ND. apply sorted_unique; try apply sort_items_sorted.
  - now rewrite !sort_items_perm.
  - eapply Permutation_NoDup; [|exact ND].
    apply Permutation_map. rewrite sort_items_perm. symmetry. exact P.
Qed.

End Sorting.

(** The keys [__hash__] writes are distinct, and sorting puts them in the
    order of [sorted_mapping]. *)
Lemma hash_dict_keys (a : Aircraft) : NoDup (map fst (hash_dict a)).
Proof.
  cbn. repeat (constructor; [cbn; intuition discriminate|]). constructor.
Qed.

Lemma sort_hash_dict (a : Aircraft) :
  sort_items (hash_dict a) = sorted_mapping format_number a.
Proof. reflexivity. Qed.

Lemma aircraft_ext (a b : Aircraft) :
  scalars a = scalars b -> sequences a = sequences b -> a = b.
Proof.
  destruct a, b. unfold scalars, sequences. cbn. intros H1 H2.
  injection H1. injection H2. intros. subst. reflexivity.
Qed.

(** ** C10 and C8 *)

(** C10: [__hash__] returns on every aircraft, whatever its floats are (NaN
    and infinities included) and whatever the lengths of its four flap
    lists, and what it returns lies in [0, 2^64). *)
Theorem hash_total_in_range (a : Aircraft) :
  exists h, __hash__ a = Returns h /\ 0 <= h < 2 ^ 64.
Proof.
  exists (fingerprint a). split; [reflexivity|]. apply hash_of_dict_range.
Qed.

(** C8: the fingerprint is a function of the field values alone.  Two
    aircraft with the same fields get the same value from [__hash__], and so
    does the same dictionary built in any other insertion order, since
    [json.dumps] sorts the keys. *)
Theorem hash_deterministic (a b : Aircraft) (d : list (string * jvalue)) :
  scalars a = scalars b -> sequences a = sequences b ->
  Permutation d (hash_dict b) ->
  __hash__ a = __hash__ b /\ Returns (hash_of_dict d) = __hash__ a /\
  0 <= hash_of_dict d < 2 ^ 64.
Proof.
  intros Hs Hl P. rewrite (aircraft_ext a b Hs Hl).
  split; [reflexivity|]. split; [|apply hash_of_dict_range].
  unfold __hash__, fingerprint, hash_of_dict, json_dumps_sorted.
  rewrite (sort_items_permutation d (hash_dict b) P (hash_dict_keys b)). reflexivity.
Qed.

Lemma hash_deterministic_witness :
  Returns (hash_of_dict (rev (hash_dict example_aircraft))) = __hash__ example_aircraft.
Proof.
  apply (hash_deterministic example_aircraft example_aircraft
           (rev (hash_dict example_aircraft)) eq_refl eq_refl).
  symmetry. apply Permutation_rev.
Defined.

(** ** Rounding to millionths *)

Lemma round6_half_even (m : positive) (e : Z) : round6 m e = half_even6 m e.
Proof.
  unfold round6, half_even6, magnitude.
  destruct (0 <=? e) eqn:He.
  - set (n := Z.pos m * 2 ^ e).
    replace (2 * n * 1000000 + 1) with (1 + (n * 1000000) * 2) by lia.
    change (2 * 1) with 2.
    rewrite Z.div_add by lia. rewrite Z.mod_add by lia. reflexivity.
  - apply Z.leb_gt in He.
    set (N := Z.pos m * 1000000). set (d := 2 ^ (- e)).
    assert (Hd : 0 < d) by (apply Z.pow_pos_nonneg; lia).
    replace (2 * Z.pos m * 1000000 + d) with (2 * N + d) by (unfold N; lia).
    pose proof (Z.div_mod N d ltac:(lia)) as Hdm.
    pose proof (Z.mod_pos_bound N d Hd) as Hr.
    set (q0 := N / d) in *. set (r := N mod d) in *.
    destruct (Z.compare_spec (2 * r) d) as [Heq|Hlt|Hgt].
    + assert (Hq : (2 * N + d) / (2 * d) = q0 + 1)
        by (symmetry; apply (Z.div_unique _ _ _ 0); lia).
      assert (Hm : (2 * N + d) mod (2 * d) = 0)
        by (symmetry; apply (Z.mod_unique _ _ (q0 + 1)); lia).
      rewrite Hq, Hm. cbn [Z.eqb andb].
      replace (q0 + 1) with (Z.succ q0) by lia. rewrite Z.odd_succ.
      destruct (Z.even q0); lia.
    + assert (Hq : (2 * N + d) / (2 * d) = q0)
        by (symmetry; apply (Z.div_unique _ _ _ (2 * r + d)); lia).
      assert (Hm : (2 * N + d) mod (2 * d) = 2 * r + d)
        by (symmetry; apply (Z.mod_unique _ _ q0); lia).
      rewrite Hq, Hm.
      destruct (Z.eqb_spec (2 * r + d) 0); [lia|reflexivity].
    + assert (Hq : (2 * N + d) / (2 * d) = q0 + 1)
        by (symmetry; apply (Z.div_unique _ _ _ (2 * r - d)); lia).
      assert (Hm : (2 * N + d) mod (2 * d) = 2 * r - d)
        by (symmetry; apply (Z.mod_unique _ _ (q0 + 1)); lia).
      rewrite Hq, Hm.
      destruct (Z.eqb_spec (2 * r - d) 0); [lia|reflexivity].
Qed.

(** [round6] is a nearest millionth: with [x = n / d] the magnitude, the
    result [q] has [|q - x * 10^6| <= 1/2], and on a tie [q] is even. *)
Lemma round6_nearest (m : positive) (e : Z) :
  let '(n, d) := magnitude m e in
  let q := round6 m e in
  Z.abs (2 * (q * d - n * 1000000)) <= d /\
  (Z.abs (2 * (q * d - n * 1000000)) = d -> Z.even q = true).
Proof.
  unfold round6, magnitude.
  destruct (0 <=? e) eqn:He.
  - split; [lia|]. intros H. lia.
  - apply Z.leb_gt in He.
    set (N := Z.pos m * 1000000). set (d := 2 ^ (- e)).
    assert (Hd : 0 < d) by (apply Z.pow_pos_nonneg; lia).
    pose proof (Z.div_mod N d ltac:(lia)) as Hdm.
    pose proof (Z.mod_pos_bound N d Hd) as Hr.
    set (q0 := N / d) in *. set (r := N mod d) in *.
    destruct (Z.compare_spec (2 * r) d) as [Heq|Hlt|Hgt].
    + destruct (Z.even q0) eqn:Hev.
      * split; [lia|]. intros _. exact Hev.
      * split; [lia|]. intros _.
        replace (q0 + 1) with (Z.succ q0) by lia.
        rewrite Z.even_succ, <- Z.negb_even, Hev. reflexivity.
    + split; [lia|]. lia.
    + split; [lia|]. lia.
Qed.

Lemma format_number_half_even (x : float) : format_number x = format_with half_even6 x.
Proof. destruct x; cbn; try reflexivity. now rewrite round6_half_even. Qed.

(** ** The dictionary as a function of the formatted fields *)

Lemma hash_dict_congr (a b : Aircraft) :
  map format_number (scalars a) = map format_number (scalars b) ->
  map (map format_number) (sequences a) = map (map format_number) (sequences b) ->
  hash_dict a = hash_dict b.
Proof.
  destruct a, b. unfold scalars, sequences, hash_dict. cbn.
  intros H1 H2. injection H1. injection H2. intros.
  repeat match goal with H : _ = _ |- _ => rewrite H; clear H end.
  reflexivity.
Qed.

Lemma sorted_mapping_ext (f g : float -> string) (a : Aircraft) :
  (forall x, f x = g x) -> sorted_mapping f a = sorted_mapping g a.
Proof.
  intros E. unfold sorted_mapping.
  rewrite !(map_ext f g E), !E. reflexivity.
Qed.

Lemma agree_round6_format (x y : float) :
  agree_round6 x y = true -> format_number x = format_number y.
Proof.
  destruct x, y; unfold agree_round6, round_key, format_number; cbv beta iota;
    intros H; try discriminate H;
    apply andb_prop in H; destruct H as [Hs Hq];
    apply Bool.eqb_prop in Hs; apply Z.eqb_eq in Hq; congruence.
Qed.

Lemma forall2b_format (xs ys : list float) :
  forall2b agree_round6 xs ys = true -> map format_number xs = map format_number ys.
Proof.
  revert ys. induction xs as [|x xs IH]; intros [|y ys]; cbn; try discriminate; auto.
  intros H. apply andb_prop in H. destruct H as [H1 H2].
  now rewrite (agree_round6_format _ _ H1), (IH _ H2).
Qed.

(** ** C1 *)

(** C1, as stated, fails: with [m_total = 0.0078125], a tie, [__hash__]
    formats ["0.007812"] (the even neighbour) where rounding a half away from
    zero gives ["0.007813"], and the two fingerprints differ. *)
Lemma half_away_counterexample :
  all_finite tie_aircraft = true /\
  format_number (m_total tie_aircraft) = "0.007812"%string /\
  format_with half_away6 (m_total tie_aircraft) = "0.007813"%string /\
  __hash__ tie_aircraft <> Returns (spec_fingerprint half_away6 tie_aircraft).
Proof.
  vm_compute. repeat split; discriminate.
Qed.

(** C1, amended: for every aircraft whose fields are all finite, [__hash__]
    returns the first 8 bytes, read big-endian, of the SHA-256 of the UTF-8
    bytes of the JSON object that maps the field names, in lexicographic
    order, to the fields in fixed point with 6 decimals, each rounded to the
    nearest millionth of its exact value, a tie going to the even
    neighbour; the flap sequences element by element in index order. *)
Theorem hash_is_spec_half_even (a : Aircraft) :
  all_finite a = true -> __hash__ a = Returns (spec_fingerprint half_even6 a).
Proof.
  intros _. unfold __hash__, spec_fingerprint. f_equal.
  rewrite be64_from_bytes.
  unfold fingerprint, hash_of_dict, json_dumps_sorted.
  rewrite sort_hash_dict.
  now rewrite (sorted_mapping_ext _ _ a format_number_half_even).
Qed.

Lemma hash_is_spec_half_even_witness :
  __hash__ tie_aircraft = Returns (spec_fingerprint half_even6 tie_aircraft).
Proof.
  apply (hash_is_spec_half_even tie_aircraft). vm_compute. reflexivity.
Defined.

(** ** C2 *)

(** C2, as stated, fails: [mainwing_span = 2.00000047...] and
    [2.00000071...] have the same first six decimals and differ only beyond
    them, yet they are formatted ["2.000000"] and ["2.000001"].  Nor is the
    same nearest millionth enough: [mainwing_twist = 0.0] and [-0.0] are
    formatted ["0.000000"] and ["-0.000000"]. *)
Lemma same_decimals_counterexample :
  (fieldwise agree_trunc6 span_low span_high = true /\
   format_number (mainwing_span span_low) = "2.000000"%string /\
   format_number (mainwing_span span_high) = "2.000001"%string /\
   __hash__ span_low <> __hash__ span_high) /\
  (fieldwise agree_numeric6 example_aircraft negzero_twist = true /\
   __hash__ example_aircraft <> __hash__ negzero_twist).
Proof.
  vm_compute. repeat split; discriminate.
Qed.

(** C2, amended: two aircraft whose fields, one by one, are finite with the
    same sign and the same nearest millionth (ties to even) have the same
    fingerprint; so have [mainwing_span = 2.0] and [2.0000001]. *)
Theorem same_rounding_same_hash (a b : Aircraft) :
  fieldwise agree_round6 a b = true -> __hash__ a = __hash__ b.
Proof.
  unfold fieldwise. intros H.
  do 4 (apply andb_prop in H; destruct H as [H ?]).
  unfold __hash__, fingerprint. do 2 f_equal.
  apply hash_dict_congr.
  - now apply forall2b_format.
  - unfold sequences. cbn [map].
    now rewrite (forall2b_format _ _ H0), (forall2b_format _ _ H1),
                (forall2b_format _ _ H2), (forall2b_format _ _ H3).
Qed.

Lemma same_rounding_same_hash_witness :
  __hash__ example_aircraft = __hash__ span_beyond.
Proof.
  apply (same_rounding_same_hash example_aircraft span_beyond).
  vm_compute. reflexivity.
Defined.

(** ** C4 *)

Lemma non_finite_format (x : float) :
  is_finite x = false ->
  In (format_number x) ["nan"; "inf"; "-inf"]%string.
Proof.
  destruct x as [s|s| |s m e]; cbn; try discriminate; intros _.
  - destruct s; auto.
  - auto.
Qed.

(** C4, as stated, fails: with [m_total = nan], [__hash__] raises nothing; it
    writes ["nan"] into the dictionary and returns the fingerprint of that. *)
Lemma nan_counterexample :
  has_non_finite nan_aircraft = true /\
  lookup_item "m_total" (hash_dict nan_aircraft) = Some (JStr "nan") /\
  __hash__ nan_aircraft = Returns 5053099508817345767 /\
  __hash__ nan_aircraft <> Raises InvalidConfiguration.
Proof.
  vm_compute. repeat split; discriminate.
Qed.

(** C4, amended: for every aircraft with a NaN or an infinity in a field,
    [__hash__] raises no error: it formats that value as ["nan"], ["inf"] or
    ["-inf"] and returns the 64-bit fingerprint of the resulting
    serialization. *)
Theorem non_finite_hash_returns (a : Aircraft) :
  has_non_finite a = true ->
  (exists x, In x (all_values a) /\ is_finite x = false /\
             In (format_number x) ["nan"; "inf"; "-inf"]%string) /\
  exists h, __hash__ a = Returns h /\ h = hash_of_dict (hash_dict a) /\ 0 <= h < 2 ^ 64.
Proof.
  unfold has_non_finite. intros H. apply existsb_exists in H.
  destruct H as [x [Hin Hx]]. apply negb_true_iff in Hx. split.
  - exists x. auto using non_finite_format.
  - exists (fingerprint a). repeat split; try apply hash_of_dict_range.
Qed.

Lemma non_finite_hash_returns_witness :
  exists h, __hash__ inf_aircraft = Returns h /\
            h = hash_of_dict (hash_dict inf_aircraft) /\ 0 <= h < 2 ^ 64.
Proof.
  apply (non_finite_hash_returns inf_aircraft). vm_compute. reflexivity.
Defined.

(** ** C9 *)

(** C9 fails on the code: [mainwing_twist = 0.0] and [-0.0] compare equal, so
    the two aircraft are [==], but they are formatted ["0.000000"] and
    ["-0.000000"] and hash differently. *)
Theorem negative_zero_breaks_hash_eq :
  Aircraft_eq example_aircraft negzero_twist = true /\
  format_number (mainwing_twist example_aircraft) = "0.000000"%string /\
  format_number (mainwing_twist negzero_twist) = "-0.000000"%string /\
  __hash__ example_aircraft = Returns 12273913353814361080 /\
  __hash__ negzero_twist = Returns 10964241286577368197.
Proof.
  vm_compute. repeat split.
Qed.

(** ** C5 and C6: [fromDict] *)

(** C5 fails on the code: a key with ["aircraft."] inside, not in front, is
    taken for an aircraft key and every occurrence is cut out of it.  Here
    ["m_aircraft.total"] supplies [m_total] and a record is built, where the
    partition by prefix leaves the aircraft without its [m_total]. *)
Theorem substring_key_taken_for_aircraft :
  prefix "aircraft." "m_aircraft.total" = false /\
  fromDict misplaced_key = Returns example_results /\
  fromDict_by_prefix misplaced_key = Raises (TypeError (MissingArguments ["m_total"%string])).
Proof.
  vm_compute. repeat split.
Qed.

Lemma dict_comprehension_ext (key key' : string -> string) (keep keep' : string -> bool)
      (d : dict) :
  Forall (fun kv => keep (fst kv) = keep' (fst kv) /\
                    (keep (fst kv) = true -> key (fst kv) = key' (fst kv))) d ->
  dict_comprehension key keep d = dict_comprehension key' keep' d.
Proof.
  unfold dict_comprehension. generalize (@nil (string * value)).
  induction d as [|kv d IH]; intros acc H; cbn; [reflexivity|].
  inversion H as [|? ? [Hk Hkey] Hd]; subst.
  rewrite <- Hk. destruct (keep (fst kv)) eqn:E.
  - rewrite <- (Hkey eq_refl). now apply IH.
  - now apply IH.
Qed.

Lemma fromDict_by_prefix_agree (d : dict) :
  Forall (fun kv => well_placed (fst kv) = true) d ->
  fromDict d = fromDict_by_prefix d.
Proof.
  intros H. unfold fromDict, fromDict_by_prefix.
  rewrite (dict_comprehension_ext (fun k => str_replace "aircraft." "" k)
             (strip_prefix "aircraft.") (fun k => str_in "aircraft." k)
             (prefix "aircraft.") d).
  - rewrite (dict_comprehension_ext (fun k => k) (fun k => k)
               (fun k => negb (str_in "aircraft." k))
               (fun k => negb (prefix "aircraft." k)) d); [reflexivity|].
    eapply Forall_impl; [|exact H]. intros kv Hw. unfold well_placed in Hw.
    apply andb_prop in Hw. destruct Hw as [Hw _]. apply Bool.eqb_prop in Hw.
    rewrite Hw. auto.
  - eapply Forall_impl; [|exact H]. intros kv Hw. unfold well_placed in Hw.
    apply andb_prop in Hw. destruct Hw as [Hw1 Hw2]. apply Bool.eqb_prop in Hw1.
    split; [exact Hw1|]. intros Hin. rewrite Hw1 in Hin. rewrite Hin in Hw2.
    cbn in Hw2. now apply String.eqb_eq in Hw2.
Qed.

Lemma flatten_well_placed (r : AircraftAnalysisResults) :
  Forall (fun kv => well_placed (fst kv) = true) (flatten r).
Proof. unfold flatten. repeat (constructor; [reflexivity|]). constructor. Qed.

(** The flat mapping written in the order of the fields is rebuilt field for
    field. *)
Lemma fromDict_flatten (r : AircraftAnalysisResults) :
  fromDict (flatten r) = Returns r.
Proof.
  destruct r as [a]. destruct a. reflexivity.
Qed.

(** ** The serialization determines the formatted fields *)

Section Serialization.

Local Open Scope string_scope.

Lemma append_assoc (a b c : string) : (a ++ b) ++ c = a ++ (b ++ c).
Proof. induction a as [|x a IH]; cbn; [reflexivity|]. now rewrite IH. Qed.

Lemma append_inv_head (p a b : string) : p ++ a = p ++ b -> a = b.
Proof. induction p as [|x p IH]; cbn; [auto|]. intros H. injection H. auto. Qed.

Lemma plainb_app (a b : string) : plainb (a ++ b) = plainb a && plainb b.
Proof. induction a as [|x a IH]; cbn; [reflexivity|]. now rewrite IH, andb_assoc. Qed.

Lemma escape_char_plain (c : ascii) : plain_char c = true -> escape_char c = str1 c.
Proof.
  unfold plain_char, escape_char. cbv zeta.
  set (n := Z.of_N (N_of_ascii c)). intros H.
  repeat (apply andb_prop in H; destruct H as [H ?]).
  repeat match goal with
         | H : negb _ = true |- _ => apply negb_true_iff in H
         | H : Z.leb _ _ = true |- _ => apply Z.leb_le in H
         end.
  repeat match goal with H : Z.eqb n _ = false |- _ => rewrite H; clear H end.
  repeat match goal with
         | |- context [Z.eqb n ?k] => destruct (Z.eqb_spec n k); [lia|]
         end.
  destruct (Z.ltb_spec n 32); [lia|]. destruct (Z.ltb_spec 126 n); [lia|].
  reflexivity.
Qed.

Lemma escape_plain (s : string) : plainb s = true -> escape s = s.
Proof.
  induction s as [|c s IH]; cbn; [reflexivity|]. intros H.
  apply andb_prop in H. destruct H as [Hc Hs].
  now rewrite (escape_char_plain c Hc), (IH Hs).
Qed.

(** A plain string is ended by the first double quote. *)
Lemma quoted_inj (s1 s2 r1 r2 : string) :
  plainb s1 = true -> plainb s2 = true ->
  s1 ++ String dquote r1 = s2 ++ String dquote r2 -> s1 = s2 /\ r1 = r2.
Proof.
  revert s2. induction s1 as [|c1 s1 IH]; intros [|c2 s2]; cbn; intros P1 P2 H.
  - injection H. auto.
  - injection H. intros _ E. subst c2. discriminate P2.
  - injection H. intros _ E. subst c1. discriminate P1.
  - injection H. intros E ->.
    apply andb_prop in P1, P2. destruct P1 as [_ P1]. destruct P2 as [_ P2].
    destruct (IH s2 P1 P2 E) as [-> ->]. auto.
Qed.

Lemma json_string_app (s k : string) :
  plainb s = true -> json_string s ++ k = String dquote (s ++ String dquote k).
Proof.
  intros P. unfold json_string. rewrite (escape_plain s P). cbn.
  now rewrite append_assoc.
Qed.

Lemma elems_cons2 (x y : string) (xs : list string) :
  elems (x :: y :: xs) = json_string x ++ ", " ++ elems (y :: xs).
Proof. reflexivity. Qed.

Lemma elems_inj (xs ys : list string) (t1 t2 : string) :
  forallb plainb xs = true -> forallb plainb ys = true ->
  elems xs ++ String "]" t1 = elems ys ++ String "]" t2 -> xs = ys /\ t1 = t2.
Proof.
  revert ys. induction xs as [|x xs IH]; intros ys P1 P2 H.
  - destruct ys as [|y [|y' ys]].
    + cbn in H. injection H. auto.
    + cbn in H. discriminate H.
    + cbn in H. discriminate H.
  - destruct ys as [|y ys].
    { destruct xs; cbn in H; discriminate H. }
    cbn [forallb] in P1, P2. apply andb_prop in P1, P2.
    destruct P1 as [Px P1]. destruct P2 as [Py P2].
    destruct xs as [|x' xs]; destruct ys as [|y' ys].
    + unfold elems in H. cbn [map join_items] in H.
      rewrite !json_string_app in H by assumption. injection H. intros E.
      destruct (quoted_inj _ _ _ _ Px Py E) as [-> E']. injection E'. auto.
    + rewrite elems_cons2 in H. unfold elems at 1 in H. cbn [map join_items] in H.
      rewrite append_assoc, !json_string_app in H by assumption. injection H. intros E.
      destruct (quoted_inj _ _ _ _ Px Py E) as [_ E']. discriminate E'.
    + rewrite elems_cons2 in H. unfold elems at 2 in H. cbn [map join_items] in H.
      rewrite append_assoc, !json_string_app in H by assumption. injection H. intros E.
      destruct (quoted_inj _ _ _ _ Px Py E) as [_ E']. discriminate E'.
    + rewrite !elems_cons2 in H.
      rewrite !append_assoc, !json_string_app in H by assumption. injection H. intros E.
      destruct (quoted_inj _ _ _ _ Px Py E) as [-> E']. cbn in E'. injection E'. intros E''.
      destruct (IH (y' :: ys) P1 P2 E'') as [-> ->]. auto.
Qed.

Lemma json_value_inj (v1 v2 : jvalue) (k1 k2 : string) :
  plain_value v1 = true -> plain_value v2 = true ->
  json_value v1 ++ k1 = json_value v2 ++ k2 -> v1 = v2 /\ k1 = k2.
Proof.
  destruct v1 as [s1|xs]; destruct v2 as [s2|ys]; cbn [plain_value json_value]; intros P1 P2 H.
  - rewrite !json_string_app in H by assumption. injection H. intros E.
    destruct (quoted_inj _ _ _ _ P1 P2 E) as [-> ->]. auto.
  - unfold json_string in H. cbn in H. discriminate H.
  - unfold json_string in H. cbn in H. discriminate H.
  - fold (elems xs) in H. fold (elems ys) in H. cbn in H. injection H. intros E.
    rewrite !append_assoc in E. cbn in E.
    destruct (elems_inj _ _ _ _ P1 P2 E) as [-> ->]. auto.
Qed.

Lemma json_item_inj (key : string) (v1 v2 : jvalue) (k1 k2 : string) :
  plain_value v1 = true -> plain_value v2 = true ->
  json_item (key, v1) ++ k1 = json_item (key, v2) ++ k2 -> v1 = v2 /\ k1 = k2.
Proof.
  unfold json_item. cbn [fst snd]. intros P1 P2 H.
  rewrite !append_assoc in H. do 2 apply append_inv_head in H.
  now apply json_value_inj.
Qed.

Lemma items_inj (d1 d2 : list (string * jvalue)) (k1 k2 : string) :
  map fst d1 = map fst d2 ->
  forallb (fun kv => plain_value (snd kv)) d1 = true ->
  forallb (fun kv => plain_value (snd kv)) d2 = true ->
  join_items (map json_item d1) ++ k1 = join_items (map json_item d2) ++ k2 ->
  d1 = d2 /\ k1 = k2.
Proof.
  revert d2. induction d1 as [|[key v1] d1 IH]; intros [|[key' v2] d2] K P1 P2 H;
    try discriminate K.
  - cbn in H. auto.
  - cbn [map fst] in K. injection K. intros K' <-.
    cbn [forallb snd] in P1, P2. apply andb_prop in P1, P2.
    destruct P1 as [Pv1 P1]. destruct P2 as [Pv2 P2].
    destruct d1 as [|x1 d1]; destruct d2 as [|x2 d2]; try discriminate K'.
    + cbn [map join_items] in H.
      destruct (json_item_inj _ _ _ _ _ Pv1 Pv2 H) as [-> ->]. auto.
    + change (join_items (map json_item ((key, v1) :: x1 :: d1)))
        with (json_item (key, v1) ++ ", " ++ join_items (map json_item (x1 :: d1))) in H.
      change (join_items (map json_item ((key, v2) :: x2 :: d2)))
        with (json_item (key, v2) ++ ", " ++ join_items (map json_item (x2 :: d2))) in H.
      rewrite !append_assoc in H.
      destruct (json_item_inj _ _ _ _ _ Pv1 Pv2 H) as [-> E].
      cbn in E. injection E. intros E'.
      destruct (IH (x2 :: d2) K' P1 P2 E') as [-> ->]. auto.
Qed.

Lemma json_object_inj (d1 d2 : list (string * jvalue)) :
  map fst d1 = map fst d2 ->
  forallb (fun kv => plain_value (snd kv)) d1 = true ->
  forallb (fun kv => plain_value (snd kv)) d2 = true ->
  json_object d1 = json_object d2 -> d1 = d2.
Proof.
  unfold json_object. intros K P1 P2 H. cbn in H. injection H. intros E.
  now destruct (items_inj _ _ _ _ K P1 P2 E).
Qed.

End Serialization.

(** ** What [format_number] writes is plain *)

Lemma nilempty_plain (d : Decimal.uint) : plainb (NilEmpty.string_of_uint d) = true.
Proof. induction d; cbn; auto. Qed.

Lemma int_digits_plain (n : Z) : plainb (int_digits n) = true.
Proof.
  unfold int_digits, NilZero.string_of_uint.
  destruct (N.to_uint (Z.to_N n)) eqn:E; try reflexivity;
    rewrite <- E at 1; apply nilempty_plain.
Qed.

Lemma digit_char_plain (d : Z) : 0 <= d < 10 -> plain_char (digit_char d) = true.
Proof.
  intros H.
  assert (d = 0 \/ d = 1 \/ d = 2 \/ d = 3 \/ d = 4 \/
          d = 5 \/ d = 6 \/ d = 7 \/ d = 8 \/ d = 9) as D by lia.
  repeat (destruct D as [->|D]; [reflexivity|]). now subst.
Qed.

Lemma frac6_plain (r : Z) : plainb (frac6 r) = true.
Proof.
  unfold frac6. cbn [map string_of_list_ascii plainb].
  rewrite !digit_char_plain by (apply Z.mod_pos_bound; lia). reflexivity.
Qed.

Lemma fixed6_plain (s : bool) (q : Z) : plainb (fixed6 s q) = true.
Proof.
  unfold fixed6. rewrite !plainb_app, int_digits_plain, frac6_plain.
  destruct s; reflexivity.
Qed.

Lemma format_number_plain (x : float) : plainb (format_number x) = true.
Proof.
  destruct x as [s|s| |s m e]; cbn [format_number]; try apply fixed6_plain.
  - destruct s; reflexivity.
  - reflexivity.
Qed.

Lemma format_list_plain (l : list float) : forallb plainb (map format_number l) = true.
Proof.
  induction l as [|x l IH]; cbn; [reflexivity|]. now rewrite format_number_plain.
Qed.

Lemma sorted_mapping_plain (a : Aircraft) :
  forallb (fun kv => plain_value (snd kv)) (sorted_mapping format_number a) = true.
Proof.
  unfold sorted_mapping. cbn [forallb snd plain_value].
  rewrite !format_number_plain, !format_list_plain. reflexivity.
Qed.

(** Two aircraft with the same serialization have the same formatted
    fields. *)
Lemma serialization_inj (a b : Aircraft) :
  json_dumps_sorted (hash_dict a) = json_dumps_sorted (hash_dict b) ->
  hash_dict a = hash_dict b.
Proof.
  unfold json_dumps_sorted. rewrite !sort_hash_dict. intros H.
  apply json_object_inj in H; try apply sorted_mapping_plain; [|reflexivity].
  unfold sorted_mapping in H. injection H. intros. unfold hash_dict.
  repeat match goal with E : _ = _ |- _ => rewrite E; clear E end.
  reflexivity.
Qed.

(** ** C7 *)

(** C7, as stated, fails: [0.1] and the next double above it are both
    formatted ["0.100000"], so exchanging them in [flap_start] changes the
    list and leaves the fingerprint as it was. *)
Lemma reorder_counterexample :
  [tenth_up; tenth] <> get_flap Flap_start twin_flaps /\
  Permutation [tenth_up; tenth] (get_flap Flap_start twin_flaps) /\
  __hash__ (set_flap Flap_start [tenth_up; tenth] twin_flaps) = __hash__ twin_flaps.
Proof.
  split; [|split].
  - vm_compute. discriminate.
  - apply perm_swap.
  - vm_compute. reflexivity.
Qed.

(** C7, amended: for every aircraft and every reordering of one of its four
    flap sequences that changes the sequence of 6-decimal strings, the
    canonical serialization that [__hash__] hashes differs from the original
    one; the fingerprint then differs unless the first 8 bytes of the SHA-256
    digests of the two serializations coincide. *)
Theorem reorder_changes_serialization (f : flap_field) (a : Aircraft) (l' : list float) :
  Permutation l' (get_flap f a) ->
  map format_number l' <> map format_number (get_flap f a) ->
  json_dumps_sorted (hash_dict (set_flap f l' a)) <> json_dumps_sorted (hash_dict a) /\
  (__hash__ (set_flap f l' a) = __hash__ a ->
   prefix_collision (json_dumps_sorted (hash_dict (set_flap f l' a)))
                    (json_dumps_sorted (hash_dict a))).
Proof.
  intros _ Hne.
  assert (N : json_dumps_sorted (hash_dict (set_flap f l' a))
              <> json_dumps_sorted (hash_dict a)).
  { intros Heq. apply Hne. apply serialization_inj in Heq.
    destruct f; unfold hash_dict, set_flap, get_flap in *; cbn in Heq;
      injection Heq; intros; assumption. }
  split; [exact N|]. intros H. split; [exact N|].
  unfold __hash__ in H. injection H. intros H'.
  now rewrite <- !fingerprint_digest_prefix.
Qed.

Lemma reorder_changes_serialization_witness :
  json_dumps_sorted (hash_dict (set_flap Flap_end [literal 6 10; literal 3 10] two_flap_aircraft))
  <> json_dumps_sorted (hash_dict two_flap_aircraft).
Proof.
  refine (proj1 (reorder_changes_serialization Flap_end two_flap_aircraft
                   [literal 6 10; literal 3 10] _ _)).
  - apply perm_swap.
  - vm_compute. discriminate.
Defined.

(** ** The formatted string determines sign and millionths *)

Lemma round6_nonneg (m : positive) (e : Z) : 0 <= round6 m e.
Proof.
  unfold round6. destruct (0 <=? e) eqn:He.
  - assert (0 <= 2 ^ e) by (apply Z.pow_nonneg; lia).
    repeat apply Z.mul_nonneg_nonneg; lia.
  - apply Z.leb_gt in He.
    assert (0 <= Z.pos m * 1000000 / 2 ^ (- e)).
    { apply Z.div_pos; [lia|]. apply Z.pow_pos_nonneg; lia. }
    destruct (_ ?= _); [destruct (Z.even _)| |]; lia.
Qed.

Section FormatInjective.

Local Open Scope string_scope.

Lemma terminated_inj (t : ascii) (s1 s2 r1 r2 : string) :
  digitsb s1 = true -> digitsb s2 = true -> is_digit t = false ->
  s1 ++ String t r1 = s2 ++ String t r2 -> s1 = s2 /\ r1 = r2.
Proof.
  intros D1 D2 Ht. revert s2 D1 D2.
  induction s1 as [|c1 s1 IH]; intros [|c2 s2]; cbn; intros D1 D2 H.
  - injection H. auto.
  - injection H. intros _ E. subst c2. rewrite Ht in D2. discriminate D2.
  - injection H. intros _ E. subst c1. rewrite Ht in D1. discriminate D1.
  - injection H. intros E ->.
    apply andb_prop in D1, D2. destruct D1 as [_ D1]. destruct D2 as [_ D2].
    destruct (IH s2 D1 D2 E) as [-> ->]. auto.
Qed.

Lemma nilempty_digits (d : Decimal.uint) : digitsb (NilEmpty.string_of_uint d) = true.
Proof. induction d; cbn; auto. Qed.

Lemma to_uint_nonnil (n : N) : N.to_uint n <> Decimal.Nil.
Proof.
  intros E. pose proof (DecimalN.Unsigned.of_to n) as H. rewrite E in H.
  cbn in H. subst n. discriminate E.
Qed.

Lemma int_digits_digits (n : Z) : digitsb (int_digits n) = true.
Proof.
  unfold int_digits, NilZero.string_of_uint.
  destruct (N.to_uint (Z.to_N n)) eqn:E; try reflexivity;
    rewrite <- E at 1; apply nilempty_digits.
Qed.

Lemma int_digits_head (n : Z) :
  exists c rest, int_digits n = String c rest /\ is_digit c = true.
Proof.
  pose proof (to_uint_nonnil (Z.to_N n)) as NN.
  unfold int_digits, NilZero.string_of_uint in *.
  destruct (N.to_uint (Z.to_N n)); try congruence; cbn;
    eexists; eexists; split; reflexivity.
Qed.

Lemma int_digits_inj (n n' : Z) :
  0 <= n -> 0 <= n' -> int_digits n = int_digits n' -> n = n'.
Proof.
  unfold int_digits. intros Hn Hn' H.
  apply (f_equal NilZero.uint_of_string) in H.
  rewrite !NilZero.usu in H by apply to_uint_nonnil.
  injection H. intros E. apply DecimalN.Unsigned.to_uint_inj in E. lia.
Qed.

Lemma digit_char_inj (a b : Z) :
  0 <= a < 10 -> 0 <= b < 10 -> digit_char a = digit_char b -> a = b.
Proof.
  intros Ha Hb.
  assert (a = 0 \/ a = 1 \/ a = 2 \/ a = 3 \/ a = 4 \/
          a = 5 \/ a = 6 \/ a = 7 \/ a = 8 \/ a = 9) as A by lia.
  assert (b = 0 \/ b = 1 \/ b = 2 \/ b = 3 \/ b = 4 \/
          b = 5 \/ b = 6 \/ b = 7 \/ b = 8 \/ b = 9) as B by lia.
  repeat (destruct A as [->|A]); subst;
    repeat (destruct B as [->|B]); subst; cbn; intros E;
    solve [reflexivity | discriminate E].
Qed.

Lemma frac6_inj (r r' : Z) :
  0 <= r < 1000000 -> 0 <= r' < 1000000 -> frac6 r = frac6 r' -> r = r'.
Proof.
  unfold frac6. cbn [map string_of_list_ascii]. intros Hr Hr' H.
  injection H. intros E1 E2 E3 E4 E5 E6.
  apply digit_char_inj in E1, E2, E3, E4, E5, E6;
    try (apply Z.mod_pos_bound; lia).
  revert E1 E2 E3 E4 E5 E6. Z.div_mod_to_equations. lia.
Qed.

(** [fixed6] is injective on signs and non-negative millionths. *)
Lemma fixed6_inj (s s' : bool) (q q' : Z) :
  0 <= q -> 0 <= q' -> fixed6 s q = fixed6 s' q' -> s = s' /\ q = q'.
Proof.
  intros Hq Hq' H. unfold fixed6 in H.
  assert (Hs : s = s').
  { destruct (int_digits_head (q / 1000000)) as [c [rest [E D]]].
    destruct (int_digits_head (q' / 1000000)) as [c' [rest' [E' D']]].
    rewrite E, E' in H.
    destruct s, s'; try reflexivity; cbn in H; injection H; intros _ Hc; subst;
      discriminate. }
  subst s'. split; [reflexivity|].
  apply append_inv_head in H.
  destruct (terminated_inj "." _ _ _ _ (int_digits_digits _) (int_digits_digits _)
              eq_refl H) as [Hi Hf].
  apply int_digits_inj in Hi; try (apply Z.div_pos; lia).
  apply frac6_inj in Hf; try (apply Z.mod_pos_bound; lia).
  rewrite (Z.div_mod q 1000000), (Z.div_mod q' 1000000) by lia. congruence.
Qed.

(** Finite numbers printed alike have the same sign and the same nearest
    millionth. *)
Lemma format_number_key (x y : float) :
  is_finite x = true -> is_finite y = true ->
  format_number x = format_number y -> round_key x = round_key y.
Proof.
  destruct x as [s|s| |s m e]; destruct y as [s'|s'| |s' m' e']; try discriminate;
    intros _ _ H; cbn [format_number] in H; cbn [round_key];
    apply fixed6_inj in H; try apply round6_nonneg; try lia;
    destruct H as [-> E]; now rewrite ?E.
Qed.

End FormatInjective.

(** ** Numbers a millionth apart are printed differently *)

Lemma pow2_times_mod5 (k : Z) :
  0 <= k -> forall z, (2 ^ k * z) mod 5 = 0 -> z mod 5 = 0.
Proof.
  intros Hk. pattern k. apply natlike_ind; [| |exact Hk].
  - intros z. now rewrite Z.pow_0_r, Z.mul_1_l.
  - intros j Hj IH z H. rewrite Z.pow_succ_r in H by exact Hj.
    apply IH. rewrite <- Z.mul_assoc in H. revert H.
    generalize (2 ^ j * z). intros w. Z.div_mod_to_equations. lia.
Qed.

Lemma magnitude_shape (m : positive) (e : Z) :
  let '(n, d) := magnitude m e in 0 < n /\ exists k, 0 <= k /\ d = 2 ^ k.
Proof.
  unfold magnitude. destruct (0 <=? e) eqn:He.
  - apply Z.leb_le in He. split.
    + apply Z.mul_pos_pos; [lia|]. apply Z.pow_pos_nonneg; lia.
    + exists 0. split; [lia|reflexivity].
  - apply Z.leb_gt in He. split; [lia|]. exists (- e). split; [lia|reflexivity].
Qed.

(** A tie: the magnitude [n / d] lies halfway between two millionths. *)
Lemma tie_mod5 (n d q sigma : Z) :
  (exists k, 0 <= k /\ d = 2 ^ k) ->
  2 * (q * d - n * 1000000) = sigma * d -> (2 * q - sigma) mod 5 = 0.
Proof.
  intros [k [Hk ->]] H. apply (pow2_times_mod5 k Hk).
  replace (2 ^ k * (2 * q - sigma)) with (5 * (n * 400000)) by lia.
  now rewrite Z.mul_comm, Z.mod_mul.
Qed.

(** Two magnitudes with the same nearest millionth are less than a
    millionth apart. *)
Lemma same_round6_close (m m' : positive) (e e' : Z) :
  round6 m e = round6 m' e' ->
  let '(n, d) := magnitude m e in
  let '(n', d') := magnitude m' e' in
  1000000 * Z.abs (n * d' - n' * d) < d * d'.
Proof.
  intros Hq.
  pose proof (round6_nearest m e) as R. pose proof (round6_nearest m' e') as R'.
  pose proof (magnitude_shape m e) as S. pose proof (magnitude_shape m' e') as S'.
  rewrite <- Hq in R'.
  destruct (magnitude m e) as [n d]. destruct (magnitude m' e') as [n' d'].
  cbv zeta in R, R'. set (q := round6 m e) in *. clearbody q.
  destruct R as [R _]. destruct R' as [R' _].
  destruct S as [Hn [k [Hk Hd]]]. destruct S' as [Hn' [k' [Hk' Hd']]].
  assert (Pd : 0 < d) by (subst d; apply Z.pow_pos_nonneg; lia).
  assert (Pd' : 0 < d') by (subst d'; apply Z.pow_pos_nonneg; lia).
  set (A := 2 * (q * d - n * 1000000)) in *.
  set (B := 2 * (q * d' - n' * 1000000)) in *.
  destruct (Z_lt_ge_dec (1000000 * Z.abs (n * d' - n' * d)) (d * d')) as [|Hge];
    [assumption|exfalso].
  assert (E : 2 * (1000000 * (n * d' - n' * d)) = B * d - A * d') by (unfold A, B; ring).
  assert (HA : Z.abs A = d /\ Z.abs B = d' /\ A * B < 0).
  { assert (Z.abs (B * d - A * d') >= 2 * (d * d')) by lia.
    assert (Z.abs A * d' <= d * d') by nia.
    assert (Z.abs B * d <= d * d') by nia.
    assert (Z.abs (B * d - A * d') <= Z.abs B * d + Z.abs A * d') by nia.
    assert (Z.abs A * d' = d * d') by lia.
    assert (Z.abs B * d = d * d') by lia.
    assert (Z.abs A = d) by nia. assert (Z.abs B = d') by nia.
    repeat split; try assumption. nia. }
  destruct HA as [HA [HB Hopp]].
  assert (Hs : (A = d /\ B = - d') \/ (A = - d /\ B = d')) by nia.
  destruct Hs as [[Ha Hb]|[Ha Hb]].
  - pose proof (tie_mod5 n d q 1 (ex_intro _ k (conj Hk Hd)) ltac:(fold A; lia)).
    pose proof (tie_mod5 n' d' q (-1) (ex_intro _ k' (conj Hk' Hd')) ltac:(fold B; lia)).
    revert H H0. Z.div_mod_to_equations. lia.
  - pose proof (tie_mod5 n d q (-1) (ex_intro _ k (conj Hk Hd)) ltac:(fold A; lia)).
    pose proof (tie_mod5 n' d' q 1 (ex_intro _ k' (conj Hk' Hd')) ltac:(fold B; lia)).
    revert H H0. Z.div_mod_to_equations. lia.
Qed.

Lemma apart6_format (x y : float) : apart6 x y -> format_number x <> format_number y.
Proof.
  intros A E.
  assert (Fx : is_finite x = true) by (destruct x; try reflexivity; contradiction A).
  assert (Fy : is_finite y = true)
    by (destruct y; try reflexivity; exfalso; unfold apart6 in A;
        destruct (exact x) as [[? ?]|]; exact A).
  pose proof (format_number_key x y Fx Fy E) as K.
  destruct x as [s|s| |s m e]; destruct y as [s'|s'| |s' m' e']; try discriminate;
    unfold apart6, exact in A; cbn [round_key] in K.
  - cbv beta iota zeta in A. lia.
  - injection K. intros Hq _.
    pose proof (round6_nearest m' e') as R. pose proof (magnitude_shape m' e') as S.
    destruct (magnitude m' e') as [n d]. cbv zeta in R. rewrite <- Hq in R.
    destruct R as [R _]. destruct S as [Hn _]. destruct s'; cbv beta iota zeta delta [cond_Zopp] in A; lia.
  - injection K. intros Hq _.
    pose proof (round6_nearest m e) as R. pose proof (magnitude_shape m e) as S.
    destruct (magnitude m e) as [n d]. cbv zeta in R. rewrite Hq in R.
    destruct R as [R _]. destruct S as [Hn _]. destruct s; cbv beta iota zeta delta [cond_Zopp] in A; lia.
  - injection K. intros Hq <-.
    pose proof (same_round6_close m m' e e' Hq) as C.
    destruct (magnitude m e) as [n d]. destruct (magnitude m' e') as [n' d'].
    destruct s; cbv beta iota zeta delta [cond_Zopp] in A; lia.
Qed.

Lemma hash_dict_fields (a b : Aircraft) :
  hash_dict a = hash_dict b ->
  map format_number (scalars a) = map format_number (scalars b) /\
  map (map format_number) (sequences a) = map (map format_number) (sequences b).
Proof.
  unfold hash_dict, scalars, sequences. cbn [map]. intros H. injection H. intros.
  split; congruence.
Qed.

Lemma zfact_21 : 2 ^ 64 < zfact 21.
Proof. vm_compute. reflexivity. Qed.

(** ** Reorderings that collide

    A sequence of 21 flaps has [21! > 2^64] orderings, so two of them have
    the same fingerprint, whatever SHA-256 does. *)

Lemma bounded_search (f : Z -> Z) (v N : Z) :
  0 <= N ->
  (exists i, 0 <= i < N /\ f i = v) \/ (forall i, 0 <= i < N -> f i <> v).
Proof.
  intros HN. pattern N. apply natlike_ind; [| |exact HN].
  - right. intros i Hi. lia.
  - intros n Hn [[i [Hi E]]|IH].
    + left. exists i. split; [lia|exact E].
    + destruct (Z.eq_dec (f n) v) as [E|NE].
      * left. exists n. split; [lia|exact E].
      * right. intros i Hi. destruct (Z.eq_dec i n) as [->|]; [exact NE|].
        apply IH. lia.
Qed.

Lemma pigeonhole (N : Z) :
  0 <= N -> forall f : Z -> Z,
  (forall i, 0 <= i <= N -> 0 <= f i < N) ->
  exists i j, 0 <= i < j /\ j <= N /\ f i = f j.
Proof.
  intros HN. pattern N. apply natlike_ind; [| |exact HN].
  - intros f Hf. specialize (Hf 0). lia.
  - intros n Hn IH f Hf.
    destruct (bounded_search f (f (Z.succ n)) (Z.succ n) ltac:(lia)) as [[i [Hi E]]|Hne].
    + exists i, (Z.succ n). repeat split; solve [lia | exact E].
    + set (v := f (Z.succ n)) in *.
      assert (Hv : 0 <= v < Z.succ n) by (apply Hf; lia).
      destruct (IH (fun i => if f i <? v then f i else f i - 1)) as [i [j [Hij [Hj E]]]].
      * intros i Hi. specialize (Hf i ltac:(lia)). specialize (Hne i ltac:(lia)).
        destruct (Z.ltb_spec (f i) v); lia.
      * exists i, j. repeat split; try lia. cbv beta in E.
        pose proof (Hne i ltac:(lia)). pose proof (Hne j ltac:(lia)).
        destruct (Z.ltb_spec (f i) v); destruct (Z.ltb_spec (f j) v); lia.
Qed.

Lemma skipn_nth (i : nat) (l : list float) :
  (i < List.length l)%nat -> skipn i l = nth i l S754_nan :: skipn (S i) l.
Proof.
  revert l. induction i as [|i IH]; intros [|x l] H; cbn in *; try lia; auto.
  apply IH. lia.
Qed.

Lemma remove_nth_perm (i : nat) (l : list float) :
  (i < List.length l)%nat -> Permutation (nth i l S754_nan :: remove_nth i l) l.
Proof.
  intros H. unfold remove_nth. rewrite <- (firstn_skipn i l) at 4.
  rewrite (skipn_nth i l H). apply Permutation_middle.
Qed.

Lemma remove_nth_length (i : nat) (l : list float) :
  (i < List.length l)%nat -> S (List.length (remove_nth i l)) = List.length l.
Proof.
  intros H. apply (Permutation_length (remove_nth_perm i l H)).
Qed.

Lemma position_in_range (n : Z) (l : list float) :
  (0 < List.length l)%nat -> (Z.to_nat (n mod Z.of_nat (List.length l)) < List.length l)%nat.
Proof.
  intros H. pose proof (Z.mod_pos_bound n (Z.of_nat (List.length l)) ltac:(lia)). lia.
Qed.

Lemma arrangement_perm (fuel : nat) :
  forall (n : Z) (l : list float),
  List.length l = fuel -> Permutation (arrangement fuel n l) l.
Proof.
  induction fuel as [|fuel IH]; intros n l Hl; cbn [arrangement].
  - destruct l; [constructor|discriminate].
  - pose proof (position_in_range n l ltac:(lia)) as Hi.
    etransitivity; [|apply (remove_nth_perm _ l Hi)].
    constructor. apply IH. pose proof (remove_nth_length _ l Hi). lia.
Qed.

Lemma arrangement_inj (fuel : nat) :
  forall (n n' : Z) (l : list float),
  List.length l = fuel -> NoDup l ->
  0 <= n < zfact fuel -> 0 <= n' < zfact fuel ->
  arrangement fuel n l = arrangement fuel n' l -> n = n'.
Proof.
  induction fuel as [|fuel IH]; intros n n' l Hl ND Hn Hn' E.
  - cbn in Hn, Hn'. lia.
  - cbn [arrangement] in E. cbn [zfact] in Hn, Hn'.
    set (k := Z.of_nat (List.length l)) in *.
    assert (Hk : k = Z.of_nat (S fuel)) by (unfold k; now rewrite Hl).
    pose proof (position_in_range n l ltac:(lia)) as Hi.
    pose proof (position_in_range n' l ltac:(lia)) as Hi'.
    fold k in Hi, Hi'. injection E. intros Et Eh.
    assert (Ei : Z.to_nat (n mod k) = Z.to_nat (n' mod k)).
    { exact (proj1 (NoDup_nth l S754_nan) ND _ _ Hi Hi' Eh). }
    rewrite <- Ei in Et.
    assert (Em : n mod k = n' mod k).
    { pose proof (Z.mod_pos_bound n k ltac:(lia)).
      pose proof (Z.mod_pos_bound n' k ltac:(lia)). lia. }
    assert (Ed : n / k = n' / k).
    { apply (IH _ _ (remove_nth (Z.to_nat (n mod k)) l)).
      - pose proof (remove_nth_length _ l Hi). lia.
      - pose proof (Permutation_NoDup (Permutation_sym (remove_nth_perm _ l Hi)) ND) as ND'.
        now inversion ND'.
      - split; [apply Z.div_pos; lia|]. apply Z.div_lt_upper_bound; lia.
      - split; [apply Z.div_pos; lia|]. apply Z.div_lt_upper_bound; lia.
      - exact Et. }
    rewrite (Z.div_mod n k), (Z.div_mod n' k) by lia. congruence.
Qed.

Lemma nodupb_sound (l : list string) : nodupb l = true -> NoDup l.
Proof.
  induction l as [|x l IH]; cbn; [constructor|]. intros H.
  apply andb_prop in H. destruct H as [Hx Hl]. constructor; [|auto].
  intros Hin. apply negb_true_iff in Hx.
  assert (existsb (String.eqb x) l = true); [|congruence].
  apply existsb_exists. exists x. split; [exact Hin|apply String.eqb_refl].
Qed.

Lemma map_inj_on (l l' : list float) :
  (forall x y, In x l -> In y l' -> format_number x = format_number y -> x = y) ->
  map format_number l = map format_number l' -> l = l'.
Proof.
  revert l'. induction l as [|x l IH]; intros [|y l'] Hinj E; try discriminate E; auto.
  cbn in E. injection E. intros Et Eh. f_equal.
  - apply Hinj; cbn; auto.
  - apply IH; [|exact Et]. intros; apply Hinj; cbn; auto.
Qed.

Lemma nodup_map_inj (l : list float) :
  NoDup (map format_number l) ->
  forall x y, In x l -> In y l -> format_number x = format_number y -> x = y.
Proof.
  induction l as [|z l IH]; cbn; intros ND x y Hx Hy E; [contradiction|].
  inversion ND as [|? ? Hnin ND']; subst.
  destruct Hx as [->|Hx]; destruct Hy as [->|Hy]; auto.
  - exfalso. apply Hnin. rewrite E. now apply in_map.
  - exfalso. apply Hnin. rewrite <- E. now apply in_map.
Qed.

Lemma flap_positions_formats : NoDup (map format_number flap_positions).
Proof. apply nodupb_sound. vm_compute. reflexivity. Qed.

(** There is an aircraft with 21 flaps and a reordering of its [flap_start]
    that changes the sequence of 6-decimal strings and not the fingerprint. *)
Lemma reorder_collision_exists :
  exists (a : Aircraft) (l' : list float),
    Permutation l' (get_flap Flap_start a) /\
    map format_number l' <> map format_number (get_flap Flap_start a) /\
    __hash__ (set_flap Flap_start l' a) = __hash__ a.
Proof.
  set (arr := fun i => arrangement 21 i flap_positions).
  destruct (pigeonhole (2 ^ 64) ltac:(lia)
              (fun i => fingerprint (set_flap Flap_start (arr i) many_flaps)))
    as [i [j [Hij [Hj E]]]].
  { intros i _. apply hash_of_dict_range. }
  assert (Pi : Permutation (arr i) flap_positions) by (apply arrangement_perm; reflexivity).
  assert (Pj : Permutation (arr j) flap_positions) by (apply arrangement_perm; reflexivity).
  exists (set_flap Flap_start (arr i) many_flaps), (arr j).
  cbn [get_flap set_flap flap_start]. repeat split.
  - now rewrite Pi, Pj.
  - intros M. apply map_inj_on in M.
    + pose proof zfact_21 as B.
      apply arrangement_inj in M; try reflexivity; try lia.
      apply (NoDup_map_inv format_number). apply flap_positions_formats.
    + intros x y Hx Hy. apply (nodup_map_inj _ flap_positions_formats).
      * eapply Permutation_in; [exact Pj|exact Hx].
      * eapply Permutation_in; [exact Pi|exact Hy].
  - unfold __hash__. f_equal. symmetry. exact E.
Qed.

(** ** C3 *)

Lemma flap_positions_apart :
  Forall (fun x => Forall (fun y => x = y \/ apart6 x y) flap_positions) flap_positions.
Proof.
  unfold flap_positions. cbn [map].
  repeat (constructor;
          [repeat (constructor;
                   [first [left; reflexivity | right; vm_compute; discriminate]|]);
           constructor|]).
  constructor.
Qed.

Lemma nth_equal_or_apart (l l' : list float) (j : nat) :
  Permutation l flap_positions -> Permutation l' flap_positions ->
  nth j l S754_nan = nth j l' S754_nan \/ apart6 (nth j l S754_nan) (nth j l' S754_nan).
Proof.
  intros P P'.
  pose proof (Permutation_length P) as L. pose proof (Permutation_length P') as L'.
  destruct (Nat.lt_ge_cases j (List.length flap_positions)) as [Hj|Hj].
  - pose proof flap_positions_apart as A. rewrite Forall_forall in A.
    assert (Hx : In (nth j l S754_nan) flap_positions)
      by (eapply Permutation_in; [exact P|apply nth_In; lia]).
    assert (Hy : In (nth j l' S754_nan) flap_positions)
      by (eapply Permutation_in; [exact P'|apply nth_In; lia]).
    specialize (A _ Hx). rewrite Forall_forall in A. exact (A _ Hy).
  - left. rewrite !nth_overflow by lia. reflexivity.
Qed.

(** C3, as stated, fails for a sequence field by counting: the 21 flap
    positions [0.0 .. 20.0] have more than [2^64] orderings, so there are two
    aircraft that differ in [flap_start] alone, by at least 1 wherever they
    differ, and have the same fingerprint. *)
Lemma one_field_collision_exists :
  exists a b : Aircraft, differ_in_one_field a b /\ __hash__ a = __hash__ b.
Proof.
  set (arr := fun i => arrangement 21 i flap_positions).
  destruct (pigeonhole (2 ^ 64) ltac:(lia)
              (fun i => fingerprint (set_flap Flap_start (arr i) many_flaps)))
    as [i [j [Hij [Hj E]]]].
  { intros i _. apply hash_of_dict_range. }
  assert (Pi : Permutation (arr i) flap_positions) by (apply arrangement_perm; reflexivity).
  assert (Pj : Permutation (arr j) flap_positions) by (apply arrangement_perm; reflexivity).
  exists (set_flap Flap_start (arr i) many_flaps), (set_flap Flap_start (arr j) many_flaps).
  split; [|unfold __hash__; now f_equal].
  right. split; [reflexivity|]. exists Flap_start. split; [|split; [|split]].
  - intros g Hg. destruct g; [congruence|reflexivity..].
  - cbn [get_flap set_flap flap_start]. intros M.
    pose proof zfact_21 as B.
    apply arrangement_inj in M; try reflexivity; try lia.
    apply (NoDup_map_inv format_number). apply flap_positions_formats.
  - cbn [get_flap set_flap flap_start].
    transitivity (List.length flap_positions);
      [exact (Permutation_length Pi)|symmetry; exact (Permutation_length Pj)].
  - intros k. cbn [get_flap set_flap flap_start]. now apply nth_equal_or_apart.
Qed.

Lemma nth_format_eq (l l' : list float) (j : nat) :
  map format_number l = map format_number l' ->
  format_number (nth j l S754_nan) = format_number (nth j l' S754_nan).
Proof.
  intros H. rewrite <- !(map_nth format_number). now rewrite H.
Qed.

Lemma differ_changes_fields (a b : Aircraft) :
  differ_in_one_field a b -> hash_dict a <> hash_dict b.
Proof.
  intros D E. apply hash_dict_fields in E. destruct E as [Es El].
  destruct D as [[_ [i [A _]]]|[_ [f [_ [Hne [Hlen Hall]]]]]].
  - exact (apart6_format _ _ A (nth_format_eq _ _ i Es)).
  - apply Hne. apply (nth_ext _ _ S754_nan S754_nan Hlen). intros j _.
    destruct (Hall j) as [Heq|A]; [exact Heq|exfalso].
    apply (apart6_format _ _ A). apply nth_format_eq.
    unfold sequences in El. cbn [map] in El. injection El. intros.
    destruct f; assumption.
Qed.

(** C3, amended: two aircraft that differ in a single field (all other fields
    equal) by at least [10^-6] - a scalar, or a flap sequence wherever its
    elements differ - have different canonical serializations; their
    fingerprints then differ unless the first 8 bytes of the SHA-256 digests
    of two different serializations coincide. *)
Theorem apart_changes_serialization (a b : Aircraft) :
  differ_in_one_field a b ->
  json_dumps_sorted (hash_dict a) <> json_dumps_sorted (hash_dict b) /\
  (__hash__ a = __hash__ b ->
   prefix_collision (json_dumps_sorted (hash_dict a)) (json_dumps_sorted (hash_dict b))).
Proof.
  intros D.
  assert (N : json_dumps_sorted (hash_dict a) <> json_dumps_sorted (hash_dict b)).
  { intros E. apply serialization_inj in E. exact (differ_changes_fields a b D E). }
  split; [exact N|]. intros H. split; [exact N|].
  unfold __hash__ in H. injection H. intros H'.
  now rewrite <- !fingerprint_digest_prefix.
Qed.

Lemma apart_changes_serialization_witness :
  json_dumps_sorted (hash_dict example_aircraft)
  <> json_dumps_sorted (hash_dict span_wider).
Proof.
  refine (proj1 (apart_changes_serialization example_aircraft span_wider _)).
  left. split; [reflexivity|]. exists 4%nat. split.
  - vm_compute. discriminate.
  - intros j Hj. do 19 (destruct j as [|j]; [try reflexivity; congruence|]).
    reflexivity.
Defined.

(** ** C6 in any insertion order *)

Section KeywordOrder.

Lemma has_key_in (k : string) (d : dict) : has_key k d = true <-> In k (map fst d).
Proof.
  unfold has_key. rewrite existsb_exists. split.
  - intros [kv [Hin E]]. apply String.eqb_eq in E. subst k. now apply in_map.
  - intros Hin. apply in_map_iff in Hin. destruct Hin as [kv [E Hin]].
    exists kv. split; [exact Hin|]. now apply String.eqb_eq.
Qed.

Lemma dict_set_fresh (d : dict) (k : string) (v : value) :
  ~ In k (map fst d) -> dict_set d k v = d ++ [(k, v)].
Proof.
  induction d as [|[k' v'] d IH]; cbn; intros H; [reflexivity|].
  destruct (String.eqb_spec k' k) as [->|_]; [tauto|].
  rewrite IH; [reflexivity|tauto].
Qed.

(** Where the keys it writes are distinct, a comprehension is a filter and a
    map. *)
Lemma dict_comprehension_distinct (key : string -> string) (keep : string -> bool) (d : dict) :
  NoDup (map key (filter keep (map fst d))) ->
  dict_comprehension key keep d
  = map (fun kv => (key (fst kv), snd kv)) (filter (fun kv => keep (fst kv)) d).
Proof.
  unfold dict_comprehension.
  enough (G : forall acc,
             NoDup (map fst acc ++ map key (filter keep (map fst d))) ->
             fold_left (fun acc kv => if keep (fst kv)
                                      then dict_set acc (key (fst kv)) (snd kv) else acc) d acc
             = acc ++ map (fun kv => (key (fst kv), snd kv))
                          (filter (fun kv => keep (fst kv)) d))
    by (intros ND; now apply (G [])).
  induction d as [|[k v] d IH]; intros acc ND; cbn [fold_left map filter fst snd].
  - now rewrite List.app_nil_r.
  - cbn [map filter fst] in ND. destruct (keep k) eqn:Hk.
    + cbn [map] in ND. rewrite dict_set_fresh.
      * rewrite IH.
        -- now rewrite <- List.app_assoc.
        -- now rewrite List.map_app, <- List.app_assoc.
      * intros Hin. apply NoDup_remove_2 in ND. apply ND. apply in_or_app. now left.
    + now apply IH.
Qed.

Lemma filter_perm {A : Type} (p : A -> bool) (l l' : list A) :
  Permutation l l' -> Permutation (filter p l) (filter p l').
Proof.
  induction 1 as [|x l l' _ IH|x y l|l l' l'' _ IH1 _ IH2]; cbn.
  - constructor.
  - destruct (p x); [now constructor|exact IH].
  - destruct (p x), (p y); try reflexivity. apply perm_swap.
  - now transitivity (filter p l').
Qed.

Lemma lookup_perm (k : string) (kw kw' : dict) :
  Permutation kw kw' -> NoDup (map fst kw) -> lookup k kw = lookup k kw'.
Proof.
  induction 1 as [|[k1 v1] l l' _ IH|[k1 v1] [k2 v2] l|l l' l'' P1 IH1 _ IH2]; intros ND.
  - reflexivity.
  - cbn. inversion ND; subst. now rewrite IH.
  - cbn. cbn in ND. inversion ND as [|? ? Hnin _]; subst.
    destruct (String.eqb_spec k2 k) as [->|]; destruct (String.eqb_spec k1 k) as [->|];
      try reflexivity.
    exfalso. apply Hnin. now left.
  - rewrite IH1 by exact ND. apply IH2.
    eapply Permutation_NoDup; [|exact ND]. now apply Permutation_map.
Qed.

Lemma filter_nil_iff {A : Type} (p : A -> bool) (l : list A) :
  filter p l = [] <-> forall x, In x l -> p x = false.
Proof.
  induction l as [|y l IH]; cbn; [tauto|].
  destruct (p y) eqn:E; split.
  - discriminate.
  - intros H. specialize (H y (or_introl eq_refl)). congruence.
  - intros H x [->|Hx]; [exact E|]. now apply IH.
  - intros H. apply IH. auto.
Qed.

Lemma check_keywords_perm (fields keys keys' : list string) :
  Permutation keys keys' ->
  check_keywords fields keys = Returns tt -> check_keywords fields keys' = Returns tt.
Proof.
  intros P. unfold check_keywords.
  destruct (filter _ keys) eqn:F1; [|discriminate].
  destruct (filter _ fields) eqn:F2; [|discriminate]. intros _.
  rewrite filter_nil_iff in F1, F2.
  assert (F1' : filter (fun k => negb (existsb (String.eqb k) fields)) keys' = []).
  { apply filter_nil_iff. intros x Hx. apply F1.
    eapply Permutation_in; [symmetry; exact P|exact Hx]. }
  assert (F2' : filter (fun f => negb (existsb (String.eqb f) keys')) fields = []).
  { apply filter_nil_iff. intros f Hf. specialize (F2 f Hf).
    apply negb_false_iff in F2. apply negb_false_iff.
    apply existsb_exists in F2. destruct F2 as [x [Hx E]].
    apply existsb_exists. exists x. split; [|exact E].
    eapply Permutation_in; [exact P|exact Hx]. }
  now rewrite F1', F2'.
Qed.

Variables kw kw' : dict.
Hypothesis kw_perm : Permutation kw kw'.
Hypothesis kw_distinct : NoDup (map fst kw).

Lemma arg_float_perm (k : string) : arg_float kw' k = arg_float kw k.
Proof. unfold arg_float. now rewrite (lookup_perm k kw kw'). Qed.

Lemma arg_list_perm (k : string) : arg_list kw' k = arg_list kw k.
Proof. unfold arg_list. now rewrite (lookup_perm k kw kw'). Qed.

Lemma arg_array_perm (k : string) : arg_array kw' k = arg_array kw k.
Proof. unfold arg_array. now rewrite (lookup_perm k kw kw'). Qed.

Lemma Aircraft_init_perm (a : Aircraft) :
  Aircraft_init kw = Returns a -> Aircraft_init kw' = Returns a.
Proof.
  unfold Aircraft_init.
  destruct (check_keywords Aircraft_fields (map fst kw)) as [[]|e] eqn:C; [|discriminate].
  rewrite (check_keywords_perm _ _ _ (Permutation_map fst kw_perm) C).
  cbn [bind]. now rewrite !arg_float_perm, !arg_list_perm.
Qed.

Lemma AircraftAnalysisResults_init_perm (a : Aircraft) (r : AircraftAnalysisResults) :
  AircraftAnalysisResults_init kw a = Returns r ->
  AircraftAnalysisResults_init kw' a = Returns r.
Proof.
  unfold AircraftAnalysisResults_init.
  assert (K : has_key "aircraft" kw' = has_key "aircraft" kw).
  { apply eq_true_iff_eq. rewrite !has_key_in. split; apply Permutation_in;
      apply Permutation_map; [symmetry|]; exact kw_perm. }
  rewrite K. destruct (has_key "aircraft" kw); [discriminate|].
  destruct (check_keywords _ (map fst kw ++ _)) as [[]|e] eqn:C; [|discriminate].
  rewrite (check_keywords_perm _ _ _
             (Permutation_app_tail _ (Permutation_map fst kw_perm)) C).
  cbn [bind]. now rewrite !arg_float_perm, !arg_list_perm, !arg_array_perm.
Qed.

End KeywordOrder.

Lemma flatten_aircraft_part (r : AircraftAnalysisResults) :
  Aircraft_init (dict_comprehension (fun k => str_replace "aircraft." "" k)
                   (fun k => str_in "aircraft." k) (flatten r))
  = Returns (aircraft r).
Proof. destruct r as [a]. destruct a. reflexivity. Qed.

Lemma flatten_results_part (r : AircraftAnalysisResults) :
  AircraftAnalysisResults_init
    (dict_comprehension (fun k => k) (fun k => negb (str_in "aircraft." k)) (flatten r))
    (aircraft r)
  = Returns r.
Proof. destruct r as [a]. destruct a. reflexivity. Qed.

Lemma flatten_aircraft_keys (r : AircraftAnalysisResults) :
  NoDup (map (fun k => str_replace "aircraft." "" k)
             (filter (fun k => str_in "aircraft." k) (map fst (flatten r)))).
Proof. apply nodupb_sound. reflexivity. Qed.

Lemma flatten_results_keys (r : AircraftAnalysisResults) :
  NoDup (map (fun k => k)
             (filter (fun k => negb (str_in "aircraft." k)) (map fst (flatten r)))).
Proof. apply nodupb_sound. reflexivity. Qed.

Lemma comprehension_perm (key : string -> string) (keep : string -> bool) (d d' : dict) :
  Permutation d d' ->
  NoDup (map key (filter keep (map fst d))) ->
  Permutation (dict_comprehension key keep d) (dict_comprehension key keep d') /\
  NoDup (map fst (dict_comprehension key keep d)).
Proof.
  intros P ND.
  assert (ND' : NoDup (map key (filter keep (map fst d')))).
  { eapply Permutation_NoDup; [|exact ND].
    apply Permutation_map, filter_perm, Permutation_map, P. }
  rewrite !dict_comprehension_distinct by assumption. split.
  - apply Permutation_map, filter_perm, P.
  - rewrite map_map. cbn [fst].
    replace (map (fun kv : string * value => key (fst kv))
                 (filter (fun kv => keep (fst kv)) d))
      with (map key (filter keep (map fst d))); [exact ND|].
    clear. induction d as [|[k v] d IH]; cbn; [reflexivity|].
    destruct (keep k); cbn; now rewrite IH.
Qed.

(** C6: a result record flattened into one mapping, the fields of its
    aircraft under the ["aircraft."] prefix, is rebuilt by [fromDict] field
    for field, the nested aircraft included, in whatever order the mapping
    was filled. *)
Theorem fromDict_rebuilds_flattened (r : AircraftAnalysisResults) (d : dict) :
  Permutation d (flatten r) -> fromDict d = Returns r.
Proof.
  intros P. apply Permutation_sym in P. unfold fromDict.
  destruct (comprehension_perm _ _ _ _ P (flatten_aircraft_keys r)) as [PA NA].
  destruct (comprehension_perm _ _ _ _ P (flatten_results_keys r)) as [PR NR].
  rewrite (Aircraft_init_perm _ _ PA NA _ (flatten_aircraft_part r)). cbn [bind].
  exact (AircraftAnalysisResults_init_perm _ _ PR NR _ _ (flatten_results_part r)).
Qed.

Lemma fromDict_rebuilds_flattened_witness :
  fromDict (rev (flatten example_results)) = Returns example_results.
Proof.
  apply (fromDict_rebuilds_flattened example_results (rev (flatten example_results))).
  symmetry. apply Permutation_rev.
Defined.

(** ** The concrete aircraft hold doubles *)

Lemma concrete_aircraft_hold_doubles :
  forallb (fun a => forallb is_double (all_values a))
    [example_aircraft; tie_aircraft; span_low; span_high; span_beyond; span_wider;
     nan_aircraft; inf_aircraft; ragged_aircraft; two_flap_aircraft; twin_flaps;
     negzero_twist; many_flaps; aircraft example_results] = true.
Proof. vm_compute. reflexivity. Qed.

(** * Further properties of the code *)

(** ** [format_number] *)

Lemma digit_char_digit (d : Z) : 0 <= d < 10 -> is_digit (digit_char d) = true.
Proof.
  intros H.
  assert (d = 0 \/ d = 1 \/ d = 2 \/ d = 3 \/ d = 4 \/
          d = 5 \/ d = 6 \/ d = 7 \/ d = 8 \/ d = 9) as D by lia.
  repeat (destruct D as [->|D]; [reflexivity|]). now subst.
Qed.

Lemma frac6_digits (r : Z) : digitsb (frac6 r) = true /\ String.length (frac6 r) = 6%nat.
Proof.
  unfold frac6. cbn [map string_of_list_ascii digitsb String.length].
  rewrite !digit_char_digit by (apply Z.mod_pos_bound; lia). split; reflexivity.
Qed.

Lemma fixed6_shape (s : bool) (q : Z) :
  exists ip fp : string,
    fixed6 s q = ((if s then "-" else "") ++ ip ++ "." ++ fp)%string /\
    digitsb ip = true /\ ip <> EmptyString /\
    digitsb fp = true /\ String.length fp = 6%nat.
Proof.
  exists (int_digits (q / 1000000)), (frac6 (q mod 1000000)).
  destruct (frac6_digits (q mod 1000000)) as [D L].
  destruct (int_digits_head (q / 1000000)) as [c [rest [E _]]].
  repeat split; try assumption.
  - apply int_digits_digits.
  - rewrite E. discriminate.
Qed.

(** X1: a finite number is printed as an optional minus sign (there exactly
    when the sign bit is set, also for [-0.0] and for negative numbers that
    round to zero), at least one digit, a point and exactly six digits: never
    an exponent, never a bare point. *)
Theorem format_number_shape (x : float) :
  is_finite x = true ->
  exists ip fp : string,
    format_number x = ((if sign_bit x then "-" else "") ++ ip ++ "." ++ fp)%string /\
    digitsb ip = true /\ ip <> EmptyString /\
    digitsb fp = true /\ String.length fp = 6%nat.
Proof.
  destruct x as [s|s| |s m e]; try discriminate; intros _; apply fixed6_shape.
Qed.

Lemma format_number_shape_witness :
  exists ip fp : string,
    format_number (literal (-1) 1000000000)
    = ((if sign_bit (literal (-1) 1000000000) then "-" else "") ++ ip ++ "." ++ fp)%string /\
    digitsb ip = true /\ ip <> EmptyString /\
    digitsb fp = true /\ String.length fp = 6%nat.
Proof.
  apply (format_number_shape (literal (-1) 1000000000)). vm_compute. reflexivity.
Defined.

(** X2: the millionths printed for a finite non-zero number are the integer
    nearest to its exact magnitude times [10^6], the even one on a tie; no
    other non-negative integer is printed as the same string. *)
Theorem format_number_nearest (s : bool) (m : positive) (e : Z) :
  exists q : Z,
    format_number (S754_finite s m e) = fixed6 s q /\ 0 <= q /\
    (let '(n, d) := magnitude m e in
     Z.abs (2 * (q * d - n * 1000000)) <= d /\
     (Z.abs (2 * (q * d - n * 1000000)) = d -> Z.even q = true)) /\
    forall q', 0 <= q' -> format_number (S754_finite s m e) = fixed6 s q' -> q' = q.
Proof.
  exists (round6 m e). pose proof (round6_nonneg m e) as P.
  repeat split; try assumption; try reflexivity.
  - exact (round6_nearest m e).
  - intros q' Hq' H. cbn [format_number] in H.
    apply fixed6_inj in H; [|assumption|assumption]. destruct H as [_ H]. now symmetry.
Qed.

(** X3: two finite numbers are printed alike exactly when they have the same
    sign bit and the same nearest millionth. *)
Theorem format_number_same_iff (x y : float) :
  is_finite x = true -> is_finite y = true ->
  (format_number x = format_number y <-> round_key x = round_key y).
Proof.
  intros Fx Fy. split; [now apply format_number_key|].
  destruct x as [s|s| |s m e]; destruct y as [s'|s'| |s' m' e']; try discriminate;
    cbn [round_key format_number]; intros H; injection H; intros; subst; congruence.
Qed.

Lemma format_number_same_iff_witness :
  format_number (literal 2 1) = format_number (literal 20000001 10000000)
  <-> round_key (literal 2 1) = round_key (literal 20000001 10000000).
Proof.
  apply (format_number_same_iff (literal 2 1) (literal 20000001 10000000));
    vm_compute; reflexivity.
Defined.

Lemma finite_format_head (x : float) :
  is_finite x = true ->
  exists c rest, format_number x = String c rest /\
                 (is_digit c = true \/
                  (c = "-"%char /\ exists c' rest', rest = String c' rest' /\ is_digit c' = true)).
Proof.
  intros F.
  assert (G : forall s q, exists c rest, fixed6 s q = String c rest /\
             (is_digit c = true \/
              (c = "-"%char /\ exists c' rest', rest = String c' rest' /\ is_digit c' = true))).
  { intros s q. unfold fixed6.
    destruct (int_digits_head (q / 1000000)) as [c [rest [E D]]]. rewrite E.
    destruct s; cbn; eauto 10. }
  destruct x as [s|s| |s m e]; try discriminate; apply G.
Qed.

(** X4: ["nan"], ["inf"] and ["-inf"] are printed for the non-finite numbers
    and for no finite one. *)
Theorem format_number_non_finite_iff (x : float) :
  In (format_number x) ["nan"; "inf"; "-inf"]%string <-> is_finite x = false.
Proof.
  split; [|apply non_finite_format].
  destruct (is_finite x) eqn:F; [|reflexivity]. intros H. exfalso.
  destruct (finite_format_head x F) as [c [rest [E [D|[-> [c' [rest' [-> D]]]]]]]];
    rewrite E in H; cbn in H;
    repeat (destruct H as [H|H]; [injection H; intros; subst; discriminate D|]);
    exact H.
Qed.

(** X5: [json.dumps] never escapes a formatted number: whatever the float,
    the JSON string is the number between two double quotes. *)
Theorem formatted_number_is_written_verbatim (x : float) :
  json_string (format_number x) = String dquote (format_number x ++ str1 dquote)%string.
Proof.
  unfold json_string. now rewrite (escape_plain _ (format_number_plain x)).
Qed.

(** ** The serialization and the integer read from the digest *)

(** X6: the canonical serialization loses nothing of the formatted fields:
    two aircraft have the same serialization exactly when their scalar
    fields are printed alike, one by one, and their flap sequences are
    printed alike, element by element and with the same lengths. *)
Theorem serialization_same_iff (a b : Aircraft) :
  json_dumps_sorted (hash_dict a) = json_dumps_sorted (hash_dict b) <->
  map format_number (scalars a) = map format_number (scalars b) /\
  map (map format_number) (sequences a) = map (map format_number) (sequences b).
Proof.
  split.
  - intros H. apply hash_dict_fields. now apply serialization_inj.
  - intros [Hs Hl]. now rewrite (hash_dict_congr a b Hs Hl).
Qed.

Section Printable.

Local Open Scope string_scope.

Lemma printableb_app (a b : string) : printableb (a ++ b) = printableb a && printableb b.
Proof. induction a as [|x a IH]; cbn; [reflexivity|]. now rewrite IH, andb_assoc. Qed.

Lemma plain_printable (s : string) : plainb s = true -> printableb s = true.
Proof.
  induction s as [|c s IH]; cbn; [reflexivity|]. intros H.
  apply andb_prop in H. destruct H as [Hc Hs]. rewrite (IH Hs), andb_true_r.
  unfold plain_char in Hc. unfold printable_char.
  do 2 (apply andb_prop in Hc; destruct Hc as [Hc _]). exact Hc.
Qed.

Lemma json_string_printable (s : string) :
  plainb s = true -> printableb (json_string s) = true.
Proof.
  intros P. unfold json_string. rewrite (escape_plain s P). cbn [printableb].
  now rewrite printableb_app, (plain_printable s P).
Qed.

Lemma join_items_printable (xs : list string) :
  forallb printableb xs = true -> printableb (join_items xs) = true.
Proof.
  induction xs as [|x xs IH]; cbn [forallb]; [reflexivity|]. intros H.
  apply andb_prop in H. destruct H as [Hx Hxs]. destruct xs as [|y ys].
  - exact Hx.
  - change (join_items (x :: y :: ys)) with (x ++ ", " ++ join_items (y :: ys)).
    rewrite !printableb_app, Hx, (IH Hxs). reflexivity.
Qed.

Lemma json_value_printable (v : jvalue) :
  plain_value v = true -> printableb (json_value v) = true.
Proof.
  destruct v as [s|xs]; cbn [plain_value json_value]; intros P.
  - now apply json_string_printable.
  - rewrite !printableb_app, join_items_printable; [reflexivity|].
    induction xs as [|x xs IH]; cbn [map forallb] in *; [reflexivity|].
    apply andb_prop in P. destruct P as [Px Pxs].
    now rewrite (json_string_printable x Px), (IH Pxs).
Qed.

Lemma json_object_printable (d : list (string * jvalue)) :
  forallb (fun kv => plainb (fst kv) && plain_value (snd kv)) d = true ->
  printableb (json_object d) = true.
Proof.
  intros H. unfold json_object.
  rewrite !printableb_app, join_items_printable; [reflexivity|].
  induction d as [|[k v] d IH]; cbn [map forallb fst snd] in *; [reflexivity|].
  apply andb_prop in H. destruct H as [Hkv Hd]. apply andb_prop in Hkv.
  destruct Hkv as [Hk Hv]. rewrite (IH Hd), andb_true_r.
  unfold json_item. cbn [fst snd].
  now rewrite !printableb_app, (json_string_printable k Hk), (json_value_printable v Hv).
Qed.

Lemma sorted_mapping_keys_plain (a : Aircraft) :
  forallb (fun kv => plainb (fst kv) && plain_value (snd kv))
          (sorted_mapping format_number a) = true.
Proof.
  unfold sorted_mapping. cbn [forallb fst snd plain_value].
  rewrite !format_number_plain, !format_list_plain. reflexivity.
Qed.

Lemma str_encode_printable (s : string) :
  printableb s = true ->
  Forall (fun b => 32 <= b <= 126)%Z (str_encode s) /\
  List.length (str_encode s) = String.length s.
Proof.
  unfold str_encode. induction s as [|c s IH]; cbn [list_ascii_of_string flat_map printableb];
    intros H; [split; [constructor|reflexivity]|].
  apply andb_prop in H. destruct H as [Hc Hs]. destruct (IH Hs) as [F L].
  unfold printable_char in Hc. apply andb_prop in Hc. destruct Hc as [H1 H2].
  apply Z.leb_le in H1, H2. unfold utf8_char at 1 3.
  destruct (Z.ltb_spec (Z.of_N (N_of_ascii c)) 128) as [_|?]; [|lia].
  cbn [app List.length String.length]. split; [constructor; [lia|exact F]|now rewrite L].
Qed.

End Printable.

(** X7: what [__hash__] gives to SHA-256 is printable ASCII, one byte for
    each character of the JSON text, whatever the floats are. *)
Theorem hashed_bytes_are_ascii (a : Aircraft) :
  Forall (fun b => 32 <= b <= 126) (str_encode (json_dumps_sorted (hash_dict a))) /\
  List.length (str_encode (json_dumps_sorted (hash_dict a)))
  = String.length (json_dumps_sorted (hash_dict a)).
Proof.
  apply str_encode_printable. unfold json_dumps_sorted. rewrite sort_hash_dict.
  apply json_object_printable, sorted_mapping_keys_plain.
Qed.

Lemma from_bytes_step (x x' b b' : Z) :
  0 <= b < 256 -> 0 <= b' < 256 -> x * 256 + b = x' * 256 + b' -> x = x' /\ b = b'.
Proof. lia. Qed.

Lemma from_bytes_first8_inj (m1 m2 : list Z) :
  int_from_bytes_big (firstn 8 (SHA256.digest m1))
  = int_from_bytes_big (firstn 8 (SHA256.digest m2)) ->
  firstn 8 (SHA256.digest m1) = firstn 8 (SHA256.digest m2).
Proof.
  destruct (digest_first8 m1) as [s [-> _]]. destruct (digest_first8 m2) as [t [-> _]].
  unfold SHA256.bytes_of_word, int_from_bytes_big. cbn [app fold_left]. intros H.
  pose proof (byte_range (SHA256.sa s) 24). pose proof (byte_range (SHA256.sa s) 16).
  pose proof (byte_range (SHA256.sa s) 8). pose proof (byte_range0 (SHA256.sa s)).
  pose proof (byte_range (SHA256.sb s) 24). pose proof (byte_range (SHA256.sb s) 16).
  pose proof (byte_range (SHA256.sb s) 8). pose proof (byte_range0 (SHA256.sb s)).
  pose proof (byte_range (SHA256.sa t) 24). pose proof (byte_range (SHA256.sa t) 16).
  pose proof (byte_range (SHA256.sa t) 8). pose proof (byte_range0 (SHA256.sa t)).
  pose proof (byte_range (SHA256.sb t) 24). pose proof (byte_range (SHA256.sb t) 16).
  pose proof (byte_range (SHA256.sb t) 8). pose proof (byte_range0 (SHA256.sb t)).
  repeat match goal with
         | E : _ * 256 + _ = _ * 256 + _ |- _ =>
             apply from_bytes_step in E; [destruct E as [E ?]|assumption|assumption]
         end.
  congruence.
Qed.

Lemma digest_prefix_inj (s1 s2 : string) :
  digest_prefix s1 = digest_prefix s2 ->
  firstn 8 (SHA256.digest (str_encode s1)) = firstn 8 (SHA256.digest (str_encode s2)).
Proof. exact (from_bytes_first8_inj (str_encode s1) (str_encode s2)). Qed.

Lemma digest_prefix_congr (s1 s2 : string) :
  firstn 8 (SHA256.digest (str_encode s1)) = firstn 8 (SHA256.digest (str_encode s2)) ->
  digest_prefix s1 = digest_prefix s2.
Proof. intros H. exact (f_equal int_from_bytes_big H). Qed.

Lemma Returns_inj {A : Type} (x y : A) : Returns x = Returns y -> x = y.
Proof. intros H. injection H. auto. Qed.

(** X8: the integer returned keeps the first eight bytes of the digest and
    nothing else: two aircraft have the same fingerprint exactly when the
    SHA-256 digests of their serializations start with the same eight
    bytes. *)
Theorem hash_same_iff_digest_prefix (a b : Aircraft) :
  __hash__ a = __hash__ b <->
  firstn 8 (SHA256.digest (str_encode (json_dumps_sorted (hash_dict a))))
  = firstn 8 (SHA256.digest (str_encode (json_dumps_sorted (hash_dict b)))).
Proof.
  unfold __hash__. split.
  - intros H. apply Returns_inj in H. rewrite !fingerprint_digest_prefix in H.
    exact (digest_prefix_inj _ _ H).
  - intros H. apply digest_prefix_congr in H. rewrite <- !fingerprint_digest_prefix in H.
    now rewrite H.
Qed.

(** ** [__eq__] and [__hash__] *)





(** ** The dictionary comprehensions of [fromDict] *)

Lemma lookup_dict_set (d : dict) (k k' : string) (v : value) :
  lookup k' (dict_set d k v) = if String.eqb k k' then Some v else lookup k' d.
Proof.
  induction d as [|[k0 v0] d IH]; cbn; [reflexivity|].
  destruct (String.eqb_spec k0 k) as [->|N]; cbn.
  - destruct (String.eqb k k'); reflexivity.
  - rewrite IH. destruct (String.eqb_spec k0 k') as [->|]; [|reflexivity].
    destruct (String.eqb_spec k k'); [congruence|reflexivity].
Qed.

Lemma lookup_app (k : string) (d1 d2 : dict) :
  lookup k (d1 ++ d2) = match lookup k d1 with Some v => Some v | None => lookup k d2 end.
Proof.
  induction d1 as [|[k0 v0] d1 IH]; cbn; [reflexivity|].
  destruct (String.eqb k0 k); [reflexivity|exact IH].
Qed.

Lemma lookup_none_iff (k : string) (d : dict) :
  lookup k d = None <-> ~ In k (map fst d).
Proof.
  induction d as [|[k0 v0] d IH]; cbn; [tauto|].
  destruct (String.eqb_spec k0 k) as [->|N]; split.
  - discriminate.
  - tauto.
  - intros H [E|Hin]; [congruence|]. now apply IH.
  - intros H. apply IH. tauto.
Qed.

Lemma comprehension_lookup (key : string -> string) (keep : string -> bool)
      (d : dict) (k' : string) :
  lookup k' (dict_comprehension key keep d)
  = lookup k' (rev (map (fun kv => (key (fst kv), snd kv))
                        (filter (fun kv => keep (fst kv)) d))).
Proof.
  unfold dict_comprehension.
  enough (G : forall acc,
             lookup k' (fold_left (fun acc kv => if keep (fst kv)
                                                 then dict_set acc (key (fst kv)) (snd kv)
                                                 else acc) d acc)
             = match lookup k' (rev (map (fun kv => (key (fst kv), snd kv))
                                         (filter (fun kv => keep (fst kv)) d))) with
               | Some v => Some v
               | None => lookup k' acc
               end).
  { rewrite G. now destruct (lookup k' (rev _)). }
  induction d as [|[k v] d IH]; intros acc; cbn [fold_left filter map rev fst snd];
    [reflexivity|].
  destruct (keep k); [|apply IH].
  rewrite IH. cbn [map rev fst snd]. rewrite lookup_app, lookup_dict_set. cbn [lookup].
  destruct (lookup k' (rev _)); [reflexivity|].
  destruct (String.eqb (key k) k'); reflexivity.
Qed.

Lemma comprehension_keys (key : string -> string) (keep : string -> bool)
      (d : dict) (k' : string) :
  In k' (map fst (dict_comprehension key keep d)) <->
  exists k, In k (map fst d) /\ keep k = true /\ key k = k'.
Proof.
  assert (E : In k' (map fst (dict_comprehension key keep d)) <->
              In k' (map fst (rev (map (fun kv => (key (fst kv), snd kv))
                                       (filter (fun kv => keep (fst kv)) d))))).
  { pose proof (lookup_none_iff k' (dict_comprehension key keep d)) as A.
    pose proof (lookup_none_iff k'
                  (rev (map (fun kv => (key (fst kv), snd kv))
                            (filter (fun kv : string * value => keep (fst kv)) d)))) as B.
    rewrite comprehension_lookup in A.
    destruct (lookup k' (rev _)); split; intros H.
    - destruct (in_dec string_dec k' (map fst (rev (map (fun kv => (key (fst kv), snd kv))
               (filter (fun kv : string * value => keep (fst kv)) d))))) as [I|I];
        [exact I|]. apply B in I. discriminate.
    - destruct (in_dec string_dec k' (map fst (dict_comprehension key keep d))) as [I|I];
        [exact I|]. apply A in I. discriminate.
    - exfalso. now apply (proj1 A).
    - exfalso. now apply (proj1 B). }
  rewrite E, map_rev, <- in_rev, in_map_iff. split.
  - intros [[k1 v1] [E1 H]]. cbn in E1. subst k'.
    apply in_map_iff in H. destruct H as [[k v] [E2 H]]. cbn in E2. injection E2.
    intros <- <-. apply filter_In in H. destruct H as [H K]. cbn in K.
    exists k. repeat split; try assumption. now apply (in_map fst) in H.
  - intros [k [H [K <-]]]. apply in_map_iff in H. destruct H as [[k0 v] [E0 H]].
    cbn in E0. subst k0. exists (key k, v). split; [reflexivity|].
    apply in_map_iff. exists (k, v). split; [reflexivity|].
    apply filter_In. split; assumption.
Qed.



Lemma replace_free (old new s : string) :
  str_in old s = false -> replace_from old new 0 s = s.
Proof.
  induction s as [|c s IH]; [reflexivity|].
  cbn [str_in]. intros H. apply orb_false_iff in H. destruct H as [P R].
  cbn [replace_from]. rewrite P. now rewrite (IH R).
Qed.

Lemma prefix_app (old s : string) : prefix old (old ++ s) = true.
Proof.
  induction old as [|c old IH]; cbn; [destruct s; reflexivity|].
  destruct (ascii_dec c c); [exact IH|contradiction].
Qed.

Lemma replace_skip (old new o s : string) :
  replace_from old new (String.length o) (o ++ s) = replace_from old new 0 s.
Proof. induction o as [|c o IH]; cbn; [reflexivity|exact IH]. Qed.

Lemma replace_prefix (c : ascii) (o new s : string) :
  replace_from (String c o) new 0 (String c o ++ s)
  = (new ++ replace_from (String c o) new 0 s)%string.
Proof.
  change (String c o ++ s)%string with (String c (o ++ s)).
  cbn [replace_from]. change (String c (o ++ s)) with (String c o ++ s)%string.
  rewrite prefix_app.
  replace (String.length (String c o) - 1)%nat with (String.length o)
    by (cbn [String.length]; lia).
  now rewrite replace_skip.
Qed.

(** X11: a key made of ["aircraft."] and a name that does not contain
    ["aircraft."] is taken for an aircraft key and cut back to that name; a
    key without ["aircraft."] is left as it is. *)
Theorem prefixed_key_is_stripped (name : string) :
  str_in "aircraft." name = false ->
  str_in "aircraft." ("aircraft." ++ name) = true /\
  str_replace "aircraft." "" ("aircraft." ++ name) = name /\
  str_replace "aircraft." "" name = name.
Proof.
  intros H. split; [|split].
  - change (str_in "aircraft." ("aircraft." ++ name))
      with (prefix "aircraft." ("aircraft." ++ name)
            || str_in "aircraft." ("ircraft." ++ name)).
    now rewrite prefix_app.
  - unfold str_replace. rewrite replace_prefix. cbn [append]. now apply replace_free.
  - now apply replace_free.
Qed.

Lemma prefixed_key_is_stripped_witness :
  str_replace "aircraft." "" ("aircraft." ++ "horizontal_ThickChord") = "horizontal_ThickChord"%string.
Proof.
  refine (proj1 (proj2 (prefixed_key_is_stripped "horizontal_ThickChord" _))).
  vm_compute. reflexivity.
Defined.

Lemma comprehension_none (key : string -> string) (keep : string -> bool) (d : dict) :
  (forall k, In k (map fst d) -> keep k = false) -> dict_comprehension key keep d = [].
Proof.
  unfold dict_comprehension. generalize (@nil (string * value)).
  induction d as [|[k v] d IH]; intros acc H; cbn [fold_left fst]; [reflexivity|].
  rewrite (H k) by (now left). apply IH. intros k' Hk'. apply H. now right.
Qed.

(** X12: a mapping without any key containing ["aircraft."], the empty
    mapping included, makes [fromDict] raise the [TypeError] of
    [Aircraft()] called without arguments: all 23 fields are missing,
    whatever else the mapping holds. *)
Theorem no_aircraft_key_raises (d : dict) :
  (forall k, In k (map fst d) -> str_in "aircraft." k = false) ->
  fromDict d = Raises (TypeError (MissingArguments Aircraft_fields)).
Proof.
  intros H. unfold fromDict.
  rewrite (comprehension_none _ (fun k => str_in "aircraft." k) d H). reflexivity.
Qed.

Lemma no_aircraft_key_raises_witness :
  fromDict [("m_boom", VFloat (literal 1 10)); ("span", VFloat (literal 2 1))]%string
  = Raises (TypeError (MissingArguments Aircraft_fields)).
Proof.
  apply no_aircraft_key_raises. intros k [<-|[<-|[]]]; reflexivity.
Defined.

(** X13: a mapping with the key ["aircraft"] itself, beside a complete set
    of aircraft keys, makes [fromDict] raise the [TypeError] of a keyword
    given twice: the key stays in the result part and meets
    [aircraft=aircraft]. *)
Theorem aircraft_key_given_twice (d : dict) (a : Aircraft) :
  Aircraft_init (dict_comprehension (fun k => str_replace "aircraft." "" k)
                   (fun k => str_in "aircraft." k) d) = Returns a ->
  In "aircraft"%string (map fst d) ->
  fromDict d = Raises (TypeError (MultipleValues "aircraft")).
Proof.
  intros HA Hin. unfold fromDict. rewrite HA. cbn [bind].
  unfold AircraftAnalysisResults_init.
  assert (K : has_key "aircraft"
                (dict_comprehension (fun k => k) (fun k => negb (str_in "aircraft." k)) d)
              = true).
  { apply has_key_in. apply comprehension_keys. exists "aircraft"%string. auto. }
  now rewrite K.
Qed.

Lemma aircraft_key_given_twice_witness :
  fromDict (("aircraft", VFloat (literal 1 1)) :: flatten example_results)%string
  = Raises (TypeError (MultipleValues "aircraft")).
Proof.
  apply (aircraft_key_given_twice _ example_aircraft).
  - vm_compute. reflexivity.
  - now left.
Defined.

(** ** Keyword calls *)

Lemma existsb_eqb_in (k : string) (l : list string) :
  existsb (String.eqb k) l = true <-> In k l.
Proof.
  rewrite existsb_exists. split.
  - intros [x [Hx E]]. apply String.eqb_eq in E. now subst.
  - intros H. exists k. split; [exact H|apply String.eqb_refl].
Qed.

Lemma check_keywords_iff (fields keys : list string) :
  check_keywords fields keys = Returns tt <->
  (forall k, In k keys -> In k fields) /\ (forall f, In f fields -> In f keys).
Proof.
  unfold check_keywords.
  destruct (filter _ keys) as [|k0 ks0] eqn:F1.
  - rewrite filter_nil_iff in F1.
    destruct (filter _ fields) as [|f0 fs0] eqn:F2.
    + rewrite filter_nil_iff in F2. split; [intros _|reflexivity]. split.
      * intros k Hk. apply existsb_eqb_in. specialize (F1 k Hk).
        now apply negb_false_iff in F1.
      * intros f Hf. apply existsb_eqb_in. specialize (F2 f Hf).
        now apply negb_false_iff in F2.
    + split; [discriminate|]. intros [_ H2]. exfalso.
      assert (I : In f0 (filter (fun f => negb (existsb (String.eqb f) keys)) fields))
        by (rewrite F2; now left).
      apply filter_In in I. destruct I as [I N]. apply negb_true_iff in N.
      apply H2, existsb_eqb_in in I. congruence.
  - split; [discriminate|]. intros [H1 _]. exfalso.
    assert (I : In k0 (filter (fun k => negb (existsb (String.eqb k) fields)) keys))
      by (rewrite F1; now left).
    apply filter_In in I. destruct I as [I N]. apply negb_true_iff in N.
    apply H1, existsb_eqb_in in I. congruence.
Qed.









(** ** [fromDict] as a whole *)

Lemma Aircraft_init_checked (kw : dict) (a : Aircraft) :
  Aircraft_init kw = Returns a ->
  check_keywords Aircraft_fields (map fst kw) = Returns tt.
Proof.
  unfold Aircraft_init.
  destruct (check_keywords Aircraft_fields (map fst kw)) as [[]|]; [reflexivity|discriminate].
Qed.

Lemma AircraftAnalysisResults_init_checked (kw : dict) (a : Aircraft)
      (r : AircraftAnalysisResults) :
  AircraftAnalysisResults_init kw a = Returns r ->
  has_key "aircraft" kw = false /\
  check_keywords AircraftAnalysisResults_fields (map fst kw ++ ["aircraft"%string])
  = Returns tt.
Proof.
  unfold AircraftAnalysisResults_init.
  destruct (has_key "aircraft" kw); [discriminate|].
  destruct (check_keywords _ _) as [[]|]; [auto|discriminate].
Qed.

(** X16: when [fromDict] returns a record, the mapping was well formed:
    every key with ["aircraft."] in it names, once that is cut out, a field
    of [Aircraft]; every other key names a field of the result record other
    than [aircraft]; and every field of both records is supplied by some
    key. *)
Theorem fromDict_returns_only_on_known_keys (d : dict) (r : AircraftAnalysisResults) :
  fromDict d = Returns r ->
  (forall k, In k (map fst d) ->
     if str_in "aircraft." k
     then In (str_replace "aircraft." "" k) Aircraft_fields
     else In k (map fst (AircraftAnalysisResults_items r))) /\
  (forall f, In f Aircraft_fields ->
     exists k, In k (map fst d) /\ str_in "aircraft." k = true /\
               str_replace "aircraft." "" k = f) /\
  (forall f, In f (map fst (AircraftAnalysisResults_items r)) -> In f (map fst d)).
Proof.
  unfold fromDict. intros H.
  destruct (Aircraft_init _) as [a|] eqn:HA; [cbn [bind] in H|discriminate H].
  apply Aircraft_init_checked, check_keywords_iff in HA. destruct HA as [A1 A2].
  apply AircraftAnalysisResults_init_checked in H. destruct H as [K C].
  apply check_keywords_iff in C. destruct C as [R1 R2].
  assert (NK : ~ In "aircraft"%string
                 (map fst (dict_comprehension (fun k => k)
                             (fun k => negb (str_in "aircraft." k)) d))).
  { intros I. apply has_key_in in I. congruence. }
  split; [|split].
  - intros k Hk. destruct (str_in "aircraft." k) eqn:S.
    + apply A1. apply comprehension_keys. exists k. auto.
    + assert (I : In k (map fst (dict_comprehension (fun k => k)
                                   (fun k => negb (str_in "aircraft." k)) d))).
      { apply comprehension_keys. exists k. rewrite S. auto. }
      specialize (R1 k (in_or_app _ _ _ (or_introl I))).
      destruct R1 as [<-|R1]; [contradiction|exact R1].
  - intros f Hf. apply A2, comprehension_keys in Hf. exact Hf.
  - intros f Hf.
    assert (I : In f AircraftAnalysisResults_fields) by (right; exact Hf).
    apply R2, in_app_or in I. destruct I as [I|[<-|[]]].
    + apply comprehension_keys in I. destruct I as [k [I [_ <-]]]. exact I.
    + exfalso. cbn in Hf. intuition discriminate.
Qed.

Lemma fromDict_returns_only_on_known_keys_witness :
  exists k, In k (map fst (flatten example_results)) /\ str_in "aircraft." k = true /\
            str_replace "aircraft." "" k = "mainwing_span"%string.
Proof.
  refine (proj1 (proj2 (fromDict_returns_only_on_known_keys
                          (flatten example_results) example_results _))
                "mainwing_span"%string _).
  - apply fromDict_flatten.
  - vm_compute. tauto.
Defined.

(** X17: the order in which the mapping was filled does not matter to a
    successful [fromDict], provided no two aircraft keys become the same
    name once ["aircraft."] is cut out. *)
Theorem fromDict_order_independent (d d' : dict) (r : AircraftAnalysisResults) :
  Permutation d d' ->
  NoDup (map fst d) ->
  NoDup (map (fun k => str_replace "aircraft." "" k)
             (filter (fun k => str_in "aircraft." k) (map fst d))) ->
  fromDict d = Returns r -> fromDict d' = Returns r.
Proof.
  intros P ND NA. unfold fromDict. intros H.
  destruct (Aircraft_init _) as [a|] eqn:HA; [cbn [bind] in H|discriminate H].
  destruct (comprehension_perm _ _ d d' P NA) as [PA NDA].
  assert (NR : NoDup (map (fun k : string => k)
                          (filter (fun k => negb (str_in "aircraft." k)) (map fst d))))
    by (rewrite map_id; now apply NoDup_filter).
  destruct (comprehension_perm _ _ d d' P NR) as [PR NDR].
  rewrite (Aircraft_init_perm _ _ PA NDA _ HA). cbn [bind].
  exact (AircraftAnalysisResults_init_perm _ _ PR NDR _ _ H).
Qed.

Lemma fromDict_order_independent_witness :
  fromDict (rev (flatten example_results)) = Returns example_results.
Proof.
  apply (fromDict_order_independent (flatten example_results)).
  - apply Permutation_rev.
  - apply nodupb_sound. vm_compute. reflexivity.
  - apply nodupb_sound. vm_compute. reflexivity.
  - apply fromDict_flatten.
Defined.

Lemma str_in_false_prefix (p s : string) : str_in p s = false -> prefix p s = false.
Proof.
  destruct s; cbn [str_in]; intros H; apply orb_false_iff in H; tauto.
Qed.

Lemma substring_skip (p s : string) (n : nat) :
  substring (String.length p) n (p ++ s) = substring 0 n s.
Proof. induction p as [|c p IH]; cbn; [reflexivity|exact IH]. Qed.

Lemma substring_whole (s : string) : substring 0 (String.length s) s = s.
Proof. induction s as [|c s IH]; cbn; [reflexivity|now rewrite IH]. Qed.

Lemma length_append (a b : string) :
  String.length (a ++ b) = (String.length a + String.length b)%nat.
Proof. induction a as [|c a IH]; cbn; [reflexivity|now rewrite IH]. Qed.

Lemma strip_prefix_app (p s : string) : strip_prefix p (p ++ s) = s.
Proof.
  unfold strip_prefix. rewrite length_append, substring_skip.
  replace (String.length p + String.length s - String.length p)%nat
    with (String.length s) by lia.
  apply substring_whole.
Qed.

(** X18: on a mapping whose keys either do not contain ["aircraft."] or are
    ["aircraft."] followed by a name that does not contain it, [fromDict]
    is the partition by prefix: the keys with the prefix, stripped of it,
    build the aircraft, the others the result record. *)
Theorem fromDict_is_prefix_partition (d : dict) :
  (forall k, In k (map fst d) ->
     str_in "aircraft." k = false \/
     exists name, k = ("aircraft." ++ name)%string /\ str_in "aircraft." name = false) ->
  fromDict d = fromDict_by_prefix d.
Proof.
  intros H. apply fromDict_by_prefix_agree. apply Forall_forall. intros [k v] Hin.
  cbn [fst]. specialize (H k (in_map fst _ _ Hin)). cbn [fst] in H. unfold well_placed.
  destruct H as [F|[name [-> F]]].
  - rewrite F, (str_in_false_prefix _ _ F). reflexivity.
  - assert (S : str_in "aircraft." ("aircraft." ++ name) = true).
    { change (str_in "aircraft." ("aircraft." ++ name))
        with (prefix "aircraft." ("aircraft." ++ name)
              || str_in "aircraft." ("ircraft." ++ name)).
      now rewrite prefix_app. }
    rewrite S, prefix_app, strip_prefix_app. cbn [Bool.eqb negb orb andb].
    unfold str_replace. rewrite replace_prefix. cbn [append].
    rewrite (replace_free _ _ _ F). apply String.eqb_refl.
Qed.

Lemma fromDict_is_prefix_partition_witness :
  fromDict (flatten example_results) = fromDict_by_prefix (flatten example_results).
Proof.
  apply (fromDict_is_prefix_partition (flatten example_results)).
  intros k Hin. cbn [flatten map fst In] in Hin.
  repeat (destruct Hin as [<-|Hin];
          [first [left; vm_compute; reflexivity
                 |right; eexists; split; [reflexivity|vm_compute; reflexivity]]|]).
  contradiction.
Defined.

(** ** [PhaseType] *)

(** X19: [PhaseType(v)] finds a member exactly for the values 0 to 3, and the
    member found is the one whose [value] is [v]: values and members
    correspond one to one. *)
Theorem PhaseType_of_value_iff (v : Z) (p : PhaseType) :
  PhaseType_of_value v = Some p <-> PhaseType_value p = v /\ 0 <= v <= 3.
Proof.
  unfold PhaseType_of_value. split.
  - repeat match goal with
           | |- context [Z.eqb v ?n] => destruct (Z.eqb_spec v n)
           end; intros H; try discriminate H; injection H; intros <-; cbn; lia.
  - intros [<- _]. destruct p; reflexivity.
Qed.
